(** * Shared-Memory KV Store: the Python binding and the REST service

    A shallow embedding of [kv_store_wrapper.py] (class [KVStoreWrapper]) and
    of the request handlers and start-up sequence of [api_server.py].

    The C engine ([libshared_memory_kv.so]) is not part of the analysed
    sources: it is an interface here (class [Engine]), and every theorem
    about the binding holds for every implementation of that interface.  A
    small reference engine written after the specification is used to run
    the binding on concrete inputs. *)

From Stdlib Require Import ZArith List String Ascii Bool Lia DecimalString.
Import ListNotations.
Open Scope Z_scope.

(** ** Constants from [kv_store_wrapper.py] *)

Definition MAX_ENTRIES : nat := 10.
Definition KEY_SIZE : Z := 64.
Definition VALUE_SIZE : Z := 256.

(** ** Python strings and bytes

    A [str] is a sequence of code points, a [bytes] object a sequence of
    integers in [0, 256). *)

Definition pystr := list Z.
Definition bytes := list Z.

(** [len(b)] as a Python integer. *)
Definition len {A : Type} (l : list A) : Z := Z.of_nat (List.length l).

(** The UTF-8 encoding of one code point, as [str.encode('utf-8')] does it
    in strict mode: surrogates (and integers that are no code points) have
    no encoding. *)
Definition encode_char (c : Z) : option bytes :=
  if c <? 0 then None
  else if c <? 128 then Some [c]
  else if c <? 2048 then
    Some [Z.lor 192 (Z.shiftr c 6); Z.lor 128 (Z.land c 63)]
  else if c <? 65536 then
    if (55296 <=? c) && (c <=? 57343) then None
    else Some [Z.lor 224 (Z.shiftr c 12);
               Z.lor 128 (Z.land (Z.shiftr c 6) 63);
               Z.lor 128 (Z.land c 63)]
  else if c <? 1114112 then
    Some [Z.lor 240 (Z.shiftr c 18);
          Z.lor 128 (Z.land (Z.shiftr c 12) 63);
          Z.lor 128 (Z.land (Z.shiftr c 6) 63);
          Z.lor 128 (Z.land c 63)]
  else None.

(** [s.encode('utf-8')]; [None] stands for [UnicodeEncodeError]. *)
Fixpoint encode_utf8 (s : pystr) : option bytes :=
  match s with
  | [] => Some []
  | c :: s' =>
      match encode_char c, encode_utf8 s' with
      | Some b, Some bs => Some (b ++ bs)
      | _, _ => None
      end
  end.

Definition is_cont (b : Z) : bool := (128 <=? b) && (b <=? 191).
Definition in_range (lo hi b : Z) : bool := (lo <=? b) && (b <=? hi).

(** [b.decode('utf-8')] in strict mode; [None] stands for
    [UnicodeDecodeError] (overlong forms, surrogates, truncated or stray
    continuation bytes). *)
Fixpoint decode_utf8 (b : bytes) : option pystr :=
  match b with
  | [] => Some []
  | b0 :: r0 =>
      if in_range 0 127 b0 then option_map (cons b0) (decode_utf8 r0)
      else if in_range 194 223 b0 then
        match r0 with
        | b1 :: r1 =>
            if is_cont b1
            then option_map (cons (Z.lor (Z.shiftl (Z.land b0 31) 6) (Z.land b1 63)))
                            (decode_utf8 r1)
            else None
        | _ => None
        end
      else if in_range 224 239 b0 then
        match r0 with
        | b1 :: b2 :: r2 =>
            let lo := if b0 =? 224 then 160 else 128 in
            let hi := if b0 =? 237 then 159 else 191 in
            if in_range lo hi b1 && is_cont b2
            then option_map
                   (cons (Z.lor (Z.shiftl (Z.land b0 15) 12)
                                (Z.lor (Z.shiftl (Z.land b1 63) 6) (Z.land b2 63))))
                   (decode_utf8 r2)
            else None
        | _ => None
        end
      else if in_range 240 244 b0 then
        match r0 with
        | b1 :: b2 :: b3 :: r3 =>
            let lo := if b0 =? 240 then 144 else 128 in
            let hi := if b0 =? 244 then 143 else 191 in
            if in_range lo hi b1 && is_cont b2 && is_cont b3
            then option_map
                   (cons (Z.lor (Z.shiftl (Z.land b0 7) 18)
                           (Z.lor (Z.shiftl (Z.land b1 63) 12)
                              (Z.lor (Z.shiftl (Z.land b2 63) 6) (Z.land b3 63)))))
                   (decode_utf8 r3)
            else None
        | _ => None
        end
      else None
  end.

(** The bytes of a C character buffer up to its first terminator: what
    ctypes returns for a [c_char] array field and for the [.value] of a
    string buffer. *)
Fixpoint c_string (buf : bytes) : bytes :=
  match buf with
  | [] => []
  | b :: r => if b =? 0 then [] else b :: c_string r
  end.

(** A [c_char * n] field: at most [n] bytes are looked at. *)
Definition c_chars (n : Z) (buf : bytes) : bytes :=
  c_string (firstn (Z.to_nat n) buf).

(** [str(n)] for an integer. *)
Definition str_of_int (n : Z) : string := NilZero.string_of_int (Z.to_int n).

(** ** The C structures, as ctypes declares them *)

Record KVPair := mkKVPair {
  key : bytes;        (* c_char * KEY_SIZE *)
  value : bytes;      (* c_char * VALUE_SIZE *)
  timestamp : Z       (* c_long *)
}.

Record SharedMemoryKVStore := mkStore {
  kv_table : list KVPair;   (* KVPair * MAX_ENTRIES *)
  sem : bytes;              (* c_byte * 32, opaque sem_t *)
  version : Z;              (* c_uint *)
  entry_count : Z           (* c_uint *)
}.

Definition zero_pair : KVPair := mkKVPair [] [] 0.

(** [store.kv_table[i]]: the record at index [i] of the mapped table. *)
Definition table_at (st : SharedMemoryKVStore) (i : nat) : KVPair :=
  nth i (kv_table st) zero_pair.

(** A ctypes [POINTER(SharedMemoryKVStore)] object. *)
Inductive pointer :=
| NULL
| Addr (a : Z).

(** [bool(p)] of a ctypes pointer: false exactly for the NULL pointer. *)
Definition pointer_bool (p : pointer) : bool :=
  match p with NULL => false | Addr _ => true end.

(** ** The foreign library

    [Shm] is everything on the far side of the foreign-function interface:
    the operating system's name space, the mapped segment, C's [errno].  The
    seven bound functions take the values the binding passes and give back
    the C return value and the new far side; [shared_memory_kv_create] and
    [shared_memory_kv_open] receive the descriptor by reference.
    [contents] is the structure a non-NULL pointer refers to, and
    [get_errno] what [ctypes.get_errno()] answers. *)
Class Engine (Shm : Type) := {
  shared_memory_kv_create : Shm -> Z -> pointer * Z * Shm;
  shared_memory_kv_open : Shm -> Z -> pointer * Z * Shm;
  shared_memory_kv_destroy : Shm -> Z -> pointer -> Shm;
  shared_memory_kv_unlink : Shm -> Z * Shm;
  shared_memory_kv_set : Shm -> pointer -> bytes -> bytes -> Z * Shm;
  shared_memory_kv_get : Shm -> pointer -> bytes -> bytes -> Z * bytes * Shm;
  shared_memory_kv_delete : Shm -> pointer -> bytes -> Z * Shm;
  get_errno : Shm -> Z;
  contents : Shm -> Z -> SharedMemoryKVStore
}.

(** What the binding does that is visible outside the Python process: calls
    into the library, and dereferences of the store pointer. *)
Inductive event :=
| CallCreate
| CallOpen
| CallDestroy (fd : Z) (p : pointer)
| CallUnlink
| CallSet (p : pointer) (k v : bytes)
| CallGet (p : pointer) (k : bytes)
| Deref (p : pointer).

Inductive exn :=
| UnicodeEncodeError
| UnicodeDecodeError
| ValueError
| AttributeError
| TypeError
| ValidationError
| FileNotFoundError
| OSError
| RuntimeError (msg : string)
| SystemExit (code : Z)
| HTTPException (status_code : Z) (detail : string).

Inductive outcome (A : Type) :=
| Return (a : A)
| Raise (e : exn).
Arguments Return {A} a.
Arguments Raise {A} e.

(** The result dictionary of [get_status]. *)
Record Entry := mkEntry {
  e_key : pystr;
  e_value : pystr;
  e_timestamp : Z
}.

Record Status := mkStatus {
  s_version : Z;
  s_entry_count : Z;
  s_max_entries : Z;
  s_entries : list Entry
}.

(** ** The wrapper object and its methods

    [store_ptr] is [None], a NULL pointer object or a pointer to the mapped
    segment; [fd] is the value of the [c_int] the wrapper owns.  A method is
    a function from the state before the call to its outcome (a returned
    value or a raised exception) and the state after it. *)

Section Wrapper.

Context {Shm : Type} {lib : Engine Shm}.

Record State := mkState {
  store_ptr : option pointer;
  fd : Z;
  shm : Shm;
  trace : list event
}.

Definition M (A : Type) : Type := State -> outcome A * State.

Definition ret {A} (a : A) : M A := fun s => (Return a, s).
Definition raise {A} (e : exn) : M A := fun s => (Raise e, s).
Definition bind {A B} (m : M A) (k : A -> M B) : M B :=
  fun s =>
    match m s with
    | (Return a, s') => k a s'
    | (Raise e, s') => (Raise e, s')
    end.

Notation "x <- m ;; k" := (bind m (fun x => k))
  (at level 61, m at next level, right associativity).
Notation "m ;;; k" := (bind m (fun _ => k))
  (at level 61, right associativity).

Definition set_store_ptr (p : option pointer) : M unit :=
  fun s => (Return tt, mkState p (fd s) (shm s) (trace s)).
Definition set_fd (n : Z) : M unit :=
  fun s => (Return tt, mkState (store_ptr s) n (shm s) (trace s)).
Definition set_shm (m : Shm) : M unit :=
  fun s => (Return tt, mkState (store_ptr s) (fd s) m (trace s)).
Definition emit (e : event) : M unit :=
  fun s => (Return tt, mkState (store_ptr s) (fd s) (shm s) (trace s ++ [e])).
Definition read {A} (f : State -> A) : M A := fun s => (Return (f s), s).

(** [b = s.encode('utf-8')] *)
Definition encode (s : pystr) : M bytes :=
  match encode_utf8 s with
  | Some b => ret b
  | None => raise UnicodeEncodeError
  end.

(** [s = b.decode('utf-8')] *)
Definition decode (b : bytes) : M pystr :=
  match decode_utf8 b with
  | Some s => ret s
  | None => raise UnicodeDecodeError
  end.

Definition msg_not_initialized : string := "Store not initialized".
Definition msg_key_too_long : string :=
  "Key too long (max " ++ str_of_int (KEY_SIZE - 1) ++ " bytes)".
Definition msg_value_too_long : string :=
  "Value too long (max " ++ str_of_int (VALUE_SIZE - 1) ++ " bytes)".
Definition msg_key_not_found : string := "Key not found".
Definition msg_error_setting (errno_val : Z) : string :=
  "Error setting key: errno=" ++ str_of_int errno_val.
Definition msg_error_getting (errno_val : Z) : string :=
  "Error getting key: errno=" ++ str_of_int errno_val.

(** [KVStoreWrapper._check_store] *)
Definition _check_store : M bool :=
  p <- read store_ptr ;;
  match p with
  | None => ret false
  | Some p =>
      if negb (pointer_bool p)
      then set_store_ptr None ;;; ret false
      else ret true
  end.

(** The C call with the wrapper's pointer; the argument is never [None]
    where the methods below make a call. *)
Definition the_ptr (p : option pointer) : pointer :=
  match p with Some p => p | None => NULL end.

(** [KVStoreWrapper.create] *)
Definition create : M bool :=
  s <- read (fun s => s) ;;
  emit CallCreate ;;;
  let '(p, fd', m) := shared_memory_kv_create (shm s) (fd s) in
  set_shm m ;;; set_fd fd' ;;; set_store_ptr (Some p) ;;;
  ok <- _check_store ;;
  if negb ok then ret false else ret true.

(** [KVStoreWrapper.open] *)
Definition open : M bool :=
  s <- read (fun s => s) ;;
  emit CallOpen ;;;
  let '(p, fd', m) := shared_memory_kv_open (shm s) (fd s) in
  set_shm m ;;; set_fd fd' ;;; set_store_ptr (Some p) ;;;
  ok <- _check_store ;;
  if negb ok then ret false else ret true.

(** [KVStoreWrapper.set] *)
Definition set (k v : pystr) : M (bool * option string) :=
  ok <- _check_store ;;
  if negb ok then ret (false, Some msg_not_initialized) else
  key_bytes <- encode k ;;
  value_bytes <- encode v ;;
  if len key_bytes >=? KEY_SIZE then ret (false, Some msg_key_too_long) else
  if len value_bytes >=? VALUE_SIZE then ret (false, Some msg_value_too_long) else
  s <- read (fun s => s) ;;
  emit (CallSet (the_ptr (store_ptr s)) key_bytes value_bytes) ;;;
  let '(result, m) :=
    shared_memory_kv_set (shm s) (the_ptr (store_ptr s)) key_bytes value_bytes in
  set_shm m ;;;
  if result =? -1 then
    errno_val <- read (fun s => get_errno (shm s)) ;;
    ret (false, Some (msg_error_setting errno_val))
  else ret (true, None).

(** [KVStoreWrapper.get] *)
Definition get (k : pystr) : M (option pystr * option string) :=
  ok <- _check_store ;;
  if negb ok then ret (None, Some msg_not_initialized) else
  key_bytes <- encode k ;;
  if len key_bytes >=? KEY_SIZE then ret (None, Some msg_key_too_long) else
  let value_buffer := repeat 0 (Z.to_nat VALUE_SIZE) in
  s <- read (fun s => s) ;;
  emit (CallGet (the_ptr (store_ptr s)) key_bytes) ;;;
  let '(result, value_buffer, m) :=
    shared_memory_kv_get (shm s) (the_ptr (store_ptr s)) key_bytes value_buffer in
  set_shm m ;;;
  if result =? -1 then
    errno_val <- read (fun s => get_errno (shm s)) ;;
    if errno_val =? 2 then ret (None, Some msg_key_not_found)
    else ret (None, Some (msg_error_getting errno_val))
  else
    value_str <- decode (c_chars VALUE_SIZE value_buffer) ;;
    ret (Some value_str, None).

(** [self.store_ptr.contents]: ctypes raises [ValueError] on a NULL pointer,
    and [None] has no such attribute. *)
Definition deref : M SharedMemoryKVStore :=
  s <- read (fun s => s) ;;
  match store_ptr s with
  | Some (Addr a) => emit (Deref (Addr a)) ;;; ret (contents (shm s) a)
  | Some NULL => raise ValueError
  | None => raise AttributeError
  end.

(** The loop of [get_status] over the slots [idx], in order. *)
Fixpoint collect (store : SharedMemoryKVStore) (idx : list nat) : M (list Entry) :=
  match idx with
  | [] => ret []
  | i :: rest =>
      let pair := table_at store i in
      if negb (Z.eqb (len (c_chars KEY_SIZE (key pair))) 0) then
        key_str <- decode (c_chars KEY_SIZE (key pair)) ;;
        value_str <- decode (c_chars VALUE_SIZE (value pair)) ;;
        entries <- collect store rest ;;
        ret (mkEntry key_str value_str (timestamp pair) :: entries)
      else collect store rest
  end.

(** [KVStoreWrapper.get_status] *)
Definition get_status : M (option Status) :=
  ok <- _check_store ;;
  if negb ok then ret None else
  fun s =>
    match deref s with
    | (Raise e, s') =>
        match e with
        | ValueError | AttributeError | TypeError =>
            (set_store_ptr None ;;; ret None) s'
        | _ => (Raise e, s')
        end
    | (Return store, s') =>
        (entries <- collect store (seq 0 MAX_ENTRIES) ;;
         ret (Some (mkStatus (version store) (entry_count store)
                             (Z.of_nat MAX_ENTRIES) entries))) s'
    end.

(** [KVStoreWrapper.destroy] *)
Definition destroy : M unit :=
  ok <- _check_store ;;
  if ok then
    s <- read (fun s => s) ;;
    emit (CallDestroy (fd s) (the_ptr (store_ptr s))) ;;;
    set_shm (shared_memory_kv_destroy (shm s) (fd s) (the_ptr (store_ptr s))) ;;;
    set_store_ptr None ;;;
    set_fd (-1)
  else ret tt.

(** [KVStoreWrapper.unlink] *)
Definition unlink : M bool :=
  s <- read (fun s => s) ;;
  emit CallUnlink ;;;
  let '(result, m) := shared_memory_kv_unlink (shm s) in
  set_shm m ;;;
  ret (result =? 0).


(** ** The service: [api_server.py]

    The module keeps one global, [kv_store], that is [None] until start-up
    has built the wrapper.  [Server] is that global together with the far
    side of the library and the trace of what the process did. *)

Record Wrapper := mkWrapper {
  w_store_ptr : option pointer;
  w_fd : Z
}.

Record Server := mkServer {
  kv_store : option Wrapper;
  srv_shm : Shm;
  srv_trace : list event
}.

(** A method call on the wrapper object held in [kv_store]. *)
Definition call {A} (m : M A) (w : Wrapper) (sv : Server) : outcome A * Server :=
  let '(r, s) := m (mkState (w_store_ptr w) (w_fd w) (srv_shm sv) (srv_trace sv)) in
  (r, mkServer (Some (mkWrapper (store_ptr s) (fd s))) (shm s) (trace s)).

(** [c.lower()] for the characters of an error message. *)
Definition lower_ascii (c : ascii) : ascii :=
  let n := nat_of_ascii c in
  if (Nat.leb 65 n && Nat.leb n 90)%bool then ascii_of_nat (n + 32) else c.

Fixpoint lower (s : string) : string :=
  match s with
  | EmptyString => EmptyString
  | String c r => String (lower_ascii c) (lower r)
  end.

(** [needle in s] *)
Fixpoint contains (needle s : string) : bool :=
  if prefix needle s then true
  else match s with
       | EmptyString => false
       | String _ r => contains needle r
       end.

(** Truth value of an [Optional[str]]. *)
Definition truthy (o : option string) : bool :=
  match o with
  | None => false
  | Some EmptyString => false
  | Some _ => true
  end.

Record GetResponse := mkGetResponse {
  gr_key : pystr;
  gr_value : pystr
}.

Record SetResponse := mkSetResponse {
  sr_success : bool;
  sr_key : pystr     (* the key quoted in the message *)
}.

(** [str(e)] of an exception, left open. *)
Variable str_of_exn : exn -> string.

(** [get_value], the handler of [GET /get/{key}] *)
Definition get_value (k : pystr) (sv : Server) : outcome GetResponse * Server :=
  match kv_store sv with
  | None => (Raise (HTTPException 503 "Store not initialized"), sv)
  | Some w =>
      match call (get k) w sv with
      | (Raise e, sv') => (Raise e, sv')
      | (Return (value, error), sv') =>
          if truthy error then
            match error with
            | Some err =>
                if contains "not found" (lower err)
                then (Raise (HTTPException 404 err), sv')
                else (Raise (HTTPException 500 err), sv')
            | None => (Raise AttributeError, sv')
            end
          else
            match value with
            | Some v => (Return (mkGetResponse k v), sv')
            | None => (Raise ValidationError, sv')
            end
      end
  end.

(** [set_value], the handler of [POST /set] *)
Definition set_value (k v : pystr) (sv : Server) : outcome SetResponse * Server :=
  match kv_store sv with
  | None => (Raise (HTTPException 503 "Store not initialized"), sv)
  | Some w =>
      match call (set k v) w sv with
      | (Raise e, sv') => (Raise e, sv')
      | (Return (success, error), sv') =>
          if negb success then
            match error with
            | None => (Raise AttributeError, sv')
            | Some err =>
                let status_code :=
                  if contains "too long" (lower err) then 413
                  else if contains "full" (lower err) || contains "ENOSPC" err
                       then 507
                       else 400 in
                (Raise (HTTPException status_code err), sv')
            end
          else (Return (mkSetResponse true k), sv')
      end
  end.

(** [get_status], the handler of [GET /status]: every exception that is not
    an [HTTPException] is wrapped into a 500. *)
Definition get_status_endpoint (sv : Server) : outcome Status * Server :=
  match kv_store sv with
  | None => (Raise (HTTPException 503 "Store not initialized"), sv)
  | Some w =>
      match call get_status w sv with
      | (Return None, sv') => (Raise (HTTPException 500 "Failed to get status"), sv')
      | (Return (Some status), sv') => (Return status, sv')
      | (Raise (HTTPException c d), sv') => (Raise (HTTPException c d), sv')
      | (Raise e, sv') =>
          (Raise (HTTPException 500 ("Internal server error: " ++ str_of_exn e)), sv')
      end
  end.

(** [KVStoreWrapper.__init__]: [lib_exists] is whether the library file is
    there, [cdll_ok] whether loading it and binding its symbols works. *)
Definition init_wrapper (lib_exists cdll_ok : bool) : outcome Wrapper :=
  if negb lib_exists then Raise FileNotFoundError
  else if negb cdll_ok then Raise OSError
  else Return (mkWrapper None (-1)).

(** The body of the [try] block of [lifespan], up to [yield]. *)
Definition lifespan_try (lib_exists cdll_ok : bool) (sv : Server)
  : outcome unit * Server :=
  if negb lib_exists then (Raise FileNotFoundError, sv) else
  match init_wrapper lib_exists cdll_ok with
  | Raise e => (Raise e, sv)
  | Return w =>
      let sv := mkServer (Some w) (srv_shm sv) (srv_trace sv) in
      match call open w sv with
      | (Raise e, sv1) => (Raise e, sv1)
      | (Return opened, sv1) =>
          let after_open :=
            if negb opened then
              match kv_store sv1 with
              | None => (Raise AttributeError, sv1)
              | Some w1 =>
                  match call create w1 sv1 with
                  | (Raise e, sv2) => (Raise e, sv2)
                  | (Return created, sv2) =>
                      if negb created
                      then (Raise (RuntimeError "Failed to create shared memory store"), sv2)
                      else (Return tt, sv2)
                  end
              end
            else (Return tt, sv1) in
          match after_open with
          | (Raise e, sv2) => (Raise e, sv2)
          | (Return _, sv2) =>
              match kv_store sv2 with
              | None => (Raise AttributeError, sv2)
              | Some w2 =>
                  match call get_status w2 sv2 with
                  | (Raise e, sv3) => (Raise e, sv3)
                  | (Return _, sv3) => (Return tt, sv3)
                  end
              end
          end
      end
  end.

(** Start-up of [lifespan]: [except Exception] turns every failure of the
    [try] block into [sys.exit(1)]; [Return tt] is reaching [yield], from
    where requests are served. *)
Definition lifespan_startup (lib_exists cdll_ok : bool) (sv : Server)
  : outcome unit * Server :=
  match lifespan_try lib_exists cdll_ok sv with
  | (Raise (SystemExit c), sv') => (Raise (SystemExit c), sv')
  | (Raise _, sv') => (Raise (SystemExit 1), sv')
  | (Return _, sv') => (Return tt, sv')
  end.

(** Shutdown of [lifespan], after [yield]. *)
Definition lifespan_shutdown (sv : Server) : outcome unit * Server :=
  match kv_store sv with
  | None => (Return tt, sv)
  | Some w => call destroy w sv
  end.

End Wrapper.

(** ** A reference engine

    The binding is run on concrete inputs against this engine. *)

Module Ref.

(** Modelled from the spec: the far side of the C engine, whose source is
    not among the analysed files: the named segment (absent until created),
    C's [errno] (which the binding never gets to see, see [engine] below)
    and the clock. *)
Record Shm := mkShm {
  segment : option SharedMemoryKVStore;
  c_errno : Z;
  clock : Z
}.

(** Modelled from the spec: the errno values of the failure kinds
    [NotFound], [AlreadyExists], invalid arguments and [StoreFull]; the
    binding itself names 2 (ENOENT) and ENOSPC. *)
Definition ENOENT : Z := 2.
Definition EEXIST : Z := 17.
Definition EINVAL : Z := 22.
Definition ENOSPC : Z := 28.

(** Modelled from the spec: where the segment is mapped, and the descriptor
    handed out for it. *)
Definition BASE : Z := 4096.
Definition FD : Z := 3.

(** Modelled from the spec: a failing call leaves the segment alone and
    sets [errno]. *)
Definition fail {A} (m : Shm) (e : Z) (r : A) : A * Shm :=
  (r, mkShm (segment m) e (clock m)).

(** Modelled from the spec: a slot is free iff its key's first byte is the
    terminator. *)
Definition is_free (p : KVPair) : bool :=
  match c_chars KEY_SIZE (key p) with [] => true | _ => false end.

(** Modelled from the spec: exact match of two keys. *)
Definition bytes_eqb (a b : bytes) : bool :=
  if list_eq_dec Z.eq_dec a b then true else false.

(** Modelled from the spec: an occupied slot whose key is [k]. *)
Definition key_matches (k : bytes) (p : KVPair) : bool :=
  negb (is_free p) && bytes_eqb (c_chars KEY_SIZE (key p)) k.

(** Modelled from the spec: [create()] zeroes the table and sets version=1,
    entry_count=0; it fails if the segment already exists. *)
Definition fresh : SharedMemoryKVStore :=
  mkStore (repeat zero_pair MAX_ENTRIES) (repeat 0 32) 1 0.

Definition kv_create (m : Shm) (fd : Z) : pointer * Z * Shm :=
  match segment m with
  | Some _ => (NULL, -1, mkShm (segment m) EEXIST (clock m))
  | None => (Addr BASE, FD, mkShm (Some fresh) (c_errno m) (clock m))
  end.

(** Modelled from the spec: [open()] attaches without reinitialising and
    fails [NotFound] if there is no segment. *)
Definition kv_open (m : Shm) (fd : Z) : pointer * Z * Shm :=
  match segment m with
  | Some _ => (Addr BASE, FD, m)
  | None => (NULL, -1, mkShm None ENOENT (clock m))
  end.

(** Modelled from the spec: [destroy] unmaps locally and leaves the segment
    in place. *)
Definition kv_destroy (m : Shm) (fd : Z) (p : pointer) : Shm := m.

(** Modelled from the spec: [unlink()] removes the name, and fails
    [NotFound] if there is nothing to remove. *)
Definition kv_unlink (m : Shm) : Z * Shm :=
  match segment m with
  | Some _ => (0, mkShm None (c_errno m) (clock m))
  | None => fail m ENOENT (-1)
  end.

(** Modelled from the spec: [put] on a key that is present overwrites value
    and timestamp in place. *)
Fixpoint overwrite (k v : bytes) (now : Z) (t : list KVPair) : option (list KVPair) :=
  match t with
  | [] => None
  | p :: r =>
      if key_matches k p then Some (mkKVPair (key p) v now :: r)
      else option_map (cons p) (overwrite k v now r)
  end.

(** Modelled from the spec: [put] on a new key writes into the first free
    slot, in index order. *)
Fixpoint insert_free (k v : bytes) (now : Z) (t : list KVPair) : option (list KVPair) :=
  match t with
  | [] => None
  | p :: r =>
      if is_free p then Some (mkKVPair k v now :: r)
      else option_map (cons p) (insert_free k v now r)
  end.

(** Modelled from the spec: [put(key, value)]. *)
Definition kv_set (m : Shm) (p : pointer) (k v : bytes) : Z * Shm :=
  match p, segment m with
  | Addr _, Some st =>
      if len (c_string k) >=? KEY_SIZE then fail m EINVAL (-1)
      else if len (c_string v) >=? VALUE_SIZE then fail m EINVAL (-1)
      else
        match overwrite (c_string k) (c_string v) (clock m) (kv_table st) with
        | Some t =>
            (0, mkShm (Some (mkStore t (sem st) (version st + 1) (entry_count st)))
                      (c_errno m) (clock m))
        | None =>
            match insert_free (c_string k) (c_string v) (clock m) (kv_table st) with
            | Some t =>
                (0, mkShm (Some (mkStore t (sem st) (version st + 1)
                                         (entry_count st + 1)))
                          (c_errno m) (clock m))
            | None => fail m ENOSPC (-1)
            end
        end
  | _, _ => fail m EINVAL (-1)
  end.

(** Modelled from the spec: [get(key)] copies the value out. *)
Definition kv_get (m : Shm) (p : pointer) (k buf : bytes) : Z * bytes * Shm :=
  match p, segment m with
  | Addr _, Some st =>
      match find (key_matches (c_string k)) (kv_table st) with
      | Some slot =>
          let v := c_chars VALUE_SIZE (value slot) in
          (0, v ++ skipn (List.length v) buf, m)
      | None => (-1, buf, mkShm (segment m) ENOENT (clock m))
      end
  | _, _ => (-1, buf, mkShm (segment m) EINVAL (clock m))
  end.

(** Modelled from the spec: [delete] zeroes the slot holding the key. *)
Fixpoint remove_key (k : bytes) (t : list KVPair) : option (list KVPair) :=
  match t with
  | [] => None
  | p :: r =>
      if key_matches k p then Some (zero_pair :: r)
      else option_map (cons p) (remove_key k r)
  end.

(** Modelled from the spec: [delete(key)]. *)
Definition kv_delete (m : Shm) (p : pointer) (k : bytes) : Z * Shm :=
  match p, segment m with
  | Addr _, Some st =>
      match remove_key (c_string k) (kv_table st) with
      | Some t =>
          (0, mkShm (Some (mkStore t (sem st) (version st + 1) (entry_count st - 1)))
                    (c_errno m) (clock m))
      | None => fail m ENOENT (-1)
      end
  | _, _ => fail m EINVAL (-1)
  end.

(** Modelled from the spec: the structure behind a pointer is the one
    segment, wherever it is mapped. *)
Definition kv_contents (m : Shm) (a : Z) : SharedMemoryKVStore :=
  match segment m with
  | Some st => st
  | None => mkStore [] [] 0 0
  end.

(** Modelled from the spec: the engine as the binding sees it.  The
    wrapper loads the library with [ctypes.CDLL(lib_path)], without
    [use_errno=True], so [ctypes.get_errno()] is ctypes' own copy of errno,
    which no call updates and nothing sets: it answers 0 whatever C's
    [errno] is. *)
#[export] Instance engine : Engine Shm := {
  shared_memory_kv_create := kv_create;
  shared_memory_kv_open := kv_open;
  shared_memory_kv_destroy := kv_destroy;
  shared_memory_kv_unlink := kv_unlink;
  shared_memory_kv_set := kv_set;
  shared_memory_kv_get := kv_get;
  shared_memory_kv_delete := kv_delete;
  get_errno := fun _ => 0;
  contents := kv_contents
}.

(** Strings of the examples. *)
Definition ascii_str (s : string) : pystr :=
  map (fun c => Z.of_nat (nat_of_ascii c)) (list_ascii_of_string s).

(** A process whose wrapper has just been built, next to no segment. *)
Definition empty_shm : Shm := mkShm None 0 1700000000.
Definition start : @State Shm := mkState None (-1) empty_shm [].

(** The state after a method call, and its result. *)
Definition after {A} (m : @M Shm A) (s : State) : State := snd (m s).
Definition result {A} (m : @M Shm A) (s : State) : outcome A := fst (m s).

(** A wrapper attached to a freshly created segment. *)
Definition created : State := after create start.

(** ... holding two entries. *)
Definition two : State :=
  after (set (ascii_str "user:2") (ascii_str "bob"))
    (after (set (ascii_str "user:1") (ascii_str "alice")) created).

(** ... filled with the keys "k0" .. "k9". *)
Definition fill (s : State) : State :=
  fold_left (fun s i => after (set (ascii_str "k" ++ [48 + Z.of_nat i])
                                   (ascii_str "v")) s)
            (seq 0 MAX_ENTRIES) s.
Definition full : State := fill created.

End Ref.

(** ** Vocabulary of the properties *)

Section Vocabulary.

Context {Shm : Type} {lib : Engine Shm}.

(** The handle is not usable: [None], or a NULL pointer object. *)
Definition uninitialized (s : @State Shm) : Prop :=
  store_ptr s = None \/ store_ptr s = Some NULL.

(** The handle points to a mapped segment. *)
Definition initialized (s : @State Shm) : Prop :=
  exists a, store_ptr s = Some (Addr a).

(** The three validation failures of [set] and [get]. *)
Definition validation_failure (error : option string) : Prop :=
  error = Some msg_not_initialized \/
  error = Some msg_key_too_long \/
  error = Some msg_value_too_long.

(** The methods of the wrapper, as one type of operations. *)
Inductive op :=
| OpCheckStore
| OpCreate
| OpOpen
| OpSet (k v : pystr)
| OpGet (k : pystr)
| OpGetStatus
| OpDestroy
| OpUnlink.

(** The state a method leaves behind, whether it returned or raised. *)
Definition step (o : op) (s : @State Shm) : @State Shm :=
  match o with
  | OpCheckStore => snd (_check_store s)
  | OpCreate => snd (create s)
  | OpOpen => snd (open s)
  | OpSet k v => snd (set k v s)
  | OpGet k => snd (get k s)
  | OpGetStatus => snd (get_status s)
  | OpDestroy => snd (destroy s)
  | OpUnlink => snd (unlink s)
  end.

(** The stored handle is [None] or a pointer that is not NULL. *)
Definition handle_invariant (s : @State Shm) : Prop :=
  store_ptr s <> Some NULL.

(** An event hands no NULL store pointer to C and dereferences none. *)
Definition no_null_event (e : event) : Prop :=
  match e with
  | CallDestroy _ p | CallSet p _ _ | CallGet p _ | Deref p => p <> NULL
  | _ => True
  end.

(** A call into the library: the only place where the Guard, which lives
    in the segment and is taken by the C functions, can be held. *)
Definition is_engine_call (e : event) : bool :=
  match e with
  | Deref _ => false
  | _ => true
  end.

(** Every access of the trace to the segment is made by the engine, not by
    a dereference on the Python side. *)
Definition reads_under_guard (t : list event) : Prop :=
  Forall (fun e => is_engine_call e = true) t.

(** A slot as [get_status] tests it: its key is not the empty string. *)
Definition occupied (p : KVPair) : bool :=
  negb (len (c_chars KEY_SIZE (key p)) =? 0).

(** A slot as [get_status] reports it, when its key and value are UTF-8. *)
Definition slot_view (p : KVPair) : option Entry :=
  match decode_utf8 (c_chars KEY_SIZE (key p)),
        decode_utf8 (c_chars VALUE_SIZE (value p)) with
  | Some k, Some v => Some (mkEntry k v (timestamp p))
  | _, _ => None
  end.

(** The slots of the table, in index order. *)
Definition slots (st : SharedMemoryKVStore) : list KVPair :=
  map (table_at st) (seq 0 MAX_ENTRIES).

(** The number of [shared_memory_kv_destroy] calls in a trace. *)
Definition destroy_calls (t : list event) : nat :=
  List.length (filter (fun e => match e with CallDestroy _ _ => true | _ => false end) t).

(** What [open()] at start-up gets from the engine: the wrapper is new, so
    its descriptor is -1. *)
Definition open_result (m : Shm) : pointer * Z * Shm :=
  shared_memory_kv_open m (-1).

Definition open_fails (m : Shm) : bool :=
  negb (pointer_bool (fst (fst (open_result m)))).

(** What [create()] gets when it is called after that [open()]. *)
Definition create_result (m : Shm) : pointer * Z * Shm :=
  shared_memory_kv_create (snd (open_result m)) (snd (fst (open_result m))).

Definition create_fails (m : Shm) : bool :=
  negb (pointer_bool (fst (fst (create_result m)))).

(** The wrapper held in [kv_store], seen as the state its methods run in. *)
Definition wrapper_state (w : Wrapper) (sv : @Server Shm) : @State Shm :=
  mkState (w_store_ptr w) (w_fd w) (srv_shm sv) (srv_trace sv).

End Vocabulary.

(** [c in s] for one character. *)
Fixpoint occurs (c : ascii) (s : string) : bool :=
  match s with
  | EmptyString => false
  | String a r => Ascii.eqb c a || occurs c r
  end.

(** A character of a printed integer: a digit or the sign. *)
Definition is_numeric (c : ascii) : bool :=
  let n := nat_of_ascii c in
  (Nat.leb 48 n && Nat.leb n 57) || Nat.eqb n 45.

Fixpoint all_chars (f : ascii -> bool) (s : string) : bool :=
  match s with
  | EmptyString => true
  | String a r => f a && all_chars f r
  end.

(** ** Concrete inputs *)

Module Inputs.

Import Ref.

(** A key of exactly KEY_SIZE bytes and one of KEY_SIZE-1 bytes. *)
Definition key64 : pystr := repeat 107 64.
Definition key63 : pystr := repeat 107 63.

(** A value of exactly VALUE_SIZE bytes. *)
Definition value256 : pystr := repeat 118 256.

(** 32 times U+00E9, two bytes each in UTF-8, and 128 times the same. *)
Definition accents32 : pystr := repeat 233 32.
Definition accents128 : pystr := repeat 233 128.

(** A wrapper whose pointer is a NULL pointer object, as in [test_fix.py]. *)
Definition null_handle : @State Shm := mkState (Some NULL) (-1) empty_shm [].

(** A wrapper without a store whose descriptor was left at 3. *)
Definition stale_fd : @State Shm := mkState None 3 empty_shm [].

(** A segment in which another process stored the key "caf\xe9"
    (Latin-1, not UTF-8), and a wrapper attached to it. *)
Definition latin1_segment : SharedMemoryKVStore :=
  mkStore (mkKVPair [99; 97; 102; 233] [120] 1700000000 :: repeat zero_pair 9)
          (repeat 0 32) 2 1.
Definition latin1 : @State Shm :=
  mkState (Some (Addr BASE)) FD (mkShm (Some latin1_segment) 0 1700000000) [].

(** The service process around a wrapper state. *)
Definition serving (s : @State Shm) : @Server Shm :=
  mkServer (Some (mkWrapper (store_ptr s) (fd s))) (shm s) (trace s).

End Inputs.

(** ** Vocabulary of the further properties *)

Section FurtherVocabulary.

Context {Shm : Type} {lib : Engine Shm}.

(** The strings an engine call receives stay below the buffer sizes. *)
Definition bounded_event (e : event) : Prop :=
  match e with
  | CallSet _ k v => len k < KEY_SIZE /\ len v < VALUE_SIZE
  | CallGet _ k => len k < KEY_SIZE
  | _ => True
  end.

(** A call of [shared_memory_kv_unlink]. *)
Definition is_unlink (e : event) : bool :=
  match e with CallUnlink => true | _ => false end.

(** A call that reads or writes the table. *)
Definition is_table_call (e : event) : bool :=
  match e with CallSet _ _ _ | CallGet _ _ => true | _ => false end.

(** What a request may do outside the process: call the engine's set or
    get, or dereference the store pointer. *)
Definition is_serving_event (e : event) : bool :=
  match e with
  | CallSet _ _ _ | CallGet _ _ | Deref _ => true
  | _ => false
  end.

(** An event that leaves the mapping and the name of the segment alone. *)
Definition keeps_segment (e : event) : bool :=
  match e with
  | CallUnlink | CallDestroy _ _ => false
  | _ => true
  end.

(** The requests the service answers. *)
Inductive request :=
| GetValue (k : pystr)
| SetValue (k v : pystr)
| GetStatus.

(** What a handler hands back, reduced to what a client sees of it: the
    body of a 200 answer is left out. *)
Inductive answer :=
| Ok200
| HttpError (status_code : Z) (detail : string)
| Unhandled (e : exn).

Definition answer_of {A} (o : outcome A) : answer :=
  match o with
  | Return _ => Ok200
  | Raise (HTTPException c d) => HttpError c d
  | Raise e => Unhandled e
  end.

(** One request against the service. *)
Definition serve (str_of_exn : exn -> string) (r : request) (sv : @Server Shm)
  : answer * @Server Shm :=
  match r with
  | GetValue k => let '(o, sv') := get_value k sv in (answer_of o, sv')
  | SetValue k v => let '(o, sv') := set_value k v sv in (answer_of o, sv')
  | GetStatus =>
      let '(o, sv') := get_status_endpoint str_of_exn sv in (answer_of o, sv')
  end.

(** The answers to a sequence of requests, and the service after them. *)
Fixpoint serve_all (str_of_exn : exn -> string) (rs : list request)
    (sv : @Server Shm) : list answer * @Server Shm :=
  match rs with
  | [] => ([], sv)
  | r :: rs' =>
      let '(a, sv1) := serve str_of_exn r sv in
      let '(l, sv2) := serve_all str_of_exn rs' sv1 in
      (a :: l, sv2)
  end.

(** The service holds a wrapper with a usable handle. *)
Definition serving_ok (sv : @Server Shm) : Prop :=
  exists w a, kv_store sv = Some w /\ w_store_ptr w = Some (Addr a).

(** A string as [get] and [get_status] hand it out: the text of at most
    [n] bytes of UTF-8 without a zero byte. *)
Definition text_within (n : Z) (txt : pystr) : Prop :=
  exists b, encode_utf8 txt = Some b /\ len b <= n /\ ~ In 0 b.

(** An entry of a status: a non-empty key and a value, both within their
    buffers. *)
Definition entry_within (e : Entry) : Prop :=
  e_key e <> [] /\ text_within KEY_SIZE (e_key e) /\
  text_within VALUE_SIZE (e_value e).

(** The service after a request: the wrapper's state after the method the
    handler called, whatever the handler then answers. *)
Definition after_call (s : @State Shm) : @Server Shm :=
  mkServer (Some (mkWrapper (store_ptr s) (fd s))) (shm s) (trace s).

(** ** The check script: [test_fix.py] *)

(** How a run of [verify_fix] ends: it returns early without the library,
    dies of an exception nothing catches, fails an assertion (at the given
    line of the script), or completes, having printed SUCCESS or FAILED for
    its guarded [get_status] call. *)
Inductive test_outcome :=
| LibraryNotFound
| Uncaught (e : exn)
| AssertionFailed (line : Z)
| Completed (success_printed : bool).

(** [assert "not initialized" in error], then the rest of the script. *)
Definition assert_not_initialized {A} (line : Z) (error : option string)
    (s : A) (rest : test_outcome * A) : test_outcome * A :=
  match error with
  | None => (Uncaught TypeError, s)
  | Some e =>
      if contains "not initialized" e then rest else (AssertionFailed line, s)
  end.

(** [verify_fix]: the outcome, and the state the wrapper is left in. *)
Definition verify_fix (lib_exists cdll_ok : bool) (m : Shm) (t : list event)
  : test_outcome * option (@State Shm) :=
  if negb lib_exists then (LibraryNotFound, None) else
  match init_wrapper lib_exists cdll_ok with
  | Raise e => (Uncaught e, None)
  | Return w =>
      let s := mkState (w_store_ptr w) (w_fd w) m t in
      (* print(f"Store initialized? {wrapper._check_store()}") *)
      let s := snd (_check_store s) in
      match get_status s with
      | (Raise e, s) => (Uncaught e, Some s)
      | (Return (Some _), s) => (AssertionFailed 27, Some s)
      | (Return None, s) =>
          (* wrapper.store_ptr = ctypes.POINTER(SharedMemoryKVStore)() *)
          let s := snd (set_store_ptr (Some NULL) s) in
          (* print(f"Store valid? {wrapper._check_store()}") *)
          let s := snd (_check_store s) in
          match _check_store s with
          | (Raise e, s) => (Uncaught e, Some s)
          | (Return true, s) => (AssertionFailed 37, Some s)
          | (Return false, s) =>
              (* try: ... except ValueError ... except Exception ... *)
              match get_status s with
              | (Raise (SystemExit c), s) => (Uncaught (SystemExit c), Some s)
              | (o, s) =>
                  let success_printed :=
                    match o with Return None => true | _ => false end in
                  match set (Ref.ascii_str "test") (Ref.ascii_str "value") s with
                  | (Raise e, s) => (Uncaught e, Some s)
                  | (Return (true, _), s) => (AssertionFailed 55, Some s)
                  | (Return (false, error), s) =>
                      assert_not_initialized 56 error (Some s)
                        match get (Ref.ascii_str "test") s with
                        | (Raise e, s) => (Uncaught e, Some s)
                        | (Return (Some _, _), s) => (AssertionFailed 61, Some s)
                        | (Return (None, error), s) =>
                            assert_not_initialized 62 error (Some s)
                              (Completed success_printed, Some s)
                        end
                  end
              end
          end
      end
  end.

End FurtherVocabulary.

(** ** Concrete inputs of the further properties *)

Module FurtherInputs.

Import Ref Inputs.

(** The service before start-up, next to no segment. *)
Definition fresh_service : @Server Shm := mkServer None empty_shm [].

(** A few requests: a write, two reads, the status, a key that is too
    long. *)
Definition some_requests : list request :=
  [SetValue (ascii_str "user:1") (ascii_str "alice");
   GetValue (ascii_str "user:1");
   GetValue (ascii_str "nobody");
   GetStatus;
   SetValue key64 (ascii_str "v")].

(** [str(e)], not looked at. *)
Definition no_text (e : exn) : string := EmptyString.

(** The buffer a [get] of "user:1" hands to the engine comes back as the
    five bytes of "alice" and 251 zero bytes. *)
Definition alice_bytes : bytes := [97; 108; 105; 99; 101].

End FurtherInputs.

(** * Properties *)

(** The fixed texts of the error messages. *)
Lemma msg_key_too_long_text : msg_key_too_long = "Key too long (max 63 bytes)"%string.
Proof. reflexivity. Qed.

Lemma msg_value_too_long_text :
  msg_value_too_long = "Value too long (max 255 bytes)"%string.
Proof. reflexivity. Qed.

Section Properties.

Context {Shm : Type} {lib : Engine Shm}.

Local Abbreviation State := (@State Shm).

Ltac unfold_methods :=
  unfold set, get, get_status, destroy, create, open, unlink, deref,
    _check_store, encode, decode, bind, ret, raise, read, emit,
    set_store_ptr, set_fd, set_shm in *.

Lemma check_store_uninitialized (s : State) :
  uninitialized s ->
  _check_store s = (Return false, mkState None (fd s) (shm s) (trace s)).
Proof.
  destruct s as [p f m t]; intros [H | H]; cbn in H; subst; reflexivity.
Qed.

Lemma check_store_initialized (s : State) :
  initialized s -> _check_store s = (Return true, s).
Proof.
  destruct s as [p f m t]; intros [a H]; cbn in H; subst; reflexivity.
Qed.

(** C2: on a handle that is [None] or a NULL pointer object, [set] returns
    [(False, "Store not initialized")], [get] returns
    [(None, "Store not initialized")], [get_status] returns [None], and
    every method of the wrapper returns a value: none raises. *)
Theorem uninitialized_store_results (s : State) (k v : pystr)
    (H : uninitialized s) :
  fst (set k v s) = Return (false, Some "Store not initialized"%string) /\
  fst (get k s) = Return (None, Some "Store not initialized"%string) /\
  fst (get_status s) = Return None /\
  fst (destroy s) = Return tt /\
  (exists b, fst (create s) = Return b) /\
  (exists b, fst (open s) = Return b) /\
  (exists b, fst (unlink s) = Return b).
Proof.
  pose proof (check_store_uninitialized s H) as C.
  repeat split.
  - unfold set, bind. rewrite C. reflexivity.
  - unfold get, bind. rewrite C. reflexivity.
  - unfold get_status, bind. rewrite C. reflexivity.
  - unfold destroy, bind. rewrite C. reflexivity.
  - unfold_methods. cbn. destruct (shared_memory_kv_create _ _) as [[[|a] f'] m'];
      cbn; eauto.
  - unfold_methods. cbn. destruct (shared_memory_kv_open _ _) as [[[|a] f'] m'];
      cbn; eauto.
  - unfold_methods. cbn. destruct (shared_memory_kv_unlink _) as [r m']; cbn; eauto.
Qed.

(** C3: when [set] or [get] returns one of the validation failures (store
    not initialized, key too long, value too long), the engine has not been
    called and the far side of the library is what it was. *)
Theorem validation_failure_touches_nothing (s : State) (k v : pystr) :
  (forall error, fst (set k v s) = Return (false, error) ->
     validation_failure error ->
     shm (snd (set k v s)) = shm s /\ trace (snd (set k v s)) = trace s) /\
  (forall error, fst (get k s) = Return (None, error) ->
     validation_failure error ->
     shm (snd (get k s)) = shm s /\ trace (snd (get k s)) = trace s).
Proof.
  destruct s as [[[|a]|] f m t]; split; intros error R V;
    unfold_methods; cbn in *; auto.
  - destruct (encode_utf8 k); cbn in *; [|discriminate].
    destruct (encode_utf8 v); cbn in *; [|discriminate].
    destruct (len b >=? KEY_SIZE); cbn in *; auto.
    destruct (len b0 >=? VALUE_SIZE); cbn in *; auto.
    destruct (shared_memory_kv_set _ _ _ _) as [r m']; cbn in *.
    destruct (r =? -1); cbn in *; [|discriminate].
    injection R as <-. destruct V as [V | [V | V]]; discriminate.
  - destruct (encode_utf8 k); cbn in *; [|discriminate].
    destruct (len b >=? KEY_SIZE); cbn in *; auto.
    destruct (shared_memory_kv_get _ _ _ _) as [[r buf] m']; cbn in *.
    destruct (r =? -1); cbn in *.
    + destruct (get_errno m' =? 2); cbn in *; injection R as <-;
        destruct V as [V | [V | V]]; discriminate.
    + destruct (decode_utf8 _); cbn in *; discriminate.
Qed.

(** The loop of [get_status] only reads. *)
Lemma collect_state (store : SharedMemoryKVStore) (idx : list nat) (s : State) :
  snd (collect store idx s) = s.
Proof.
  induction idx as [|i idx IH]; cbn; [reflexivity|].
  destruct (negb _); [|exact IH].
  unfold bind, decode, ret, raise.
  repeat match goal with
         | |- context [decode_utf8 ?b] => destruct (decode_utf8 b); cbn
         end; try reflexivity.
  destruct (collect store idx s) as [[r|e] s'] eqn:E; cbn in *; congruence.
Qed.

(** What [get_status] leaves behind: a normalised handle, or one more
    dereference in the trace. *)
Lemma get_status_state (s : State) :
  snd (get_status s) =
  match store_ptr s with
  | Some (Addr a) => mkState (store_ptr s) (fd s) (shm s) (trace s ++ [Deref (Addr a)])
  | _ => mkState None (fd s) (shm s) (trace s)
  end.
Proof.
  destruct s as [[[|a]|] f m t]; unfold_methods; cbn -[collect seq];
    try reflexivity.
  pose proof (collect_state (contents m a) (seq 0 MAX_ENTRIES)
                (mkState (Some (Addr a)) f m (t ++ [Deref (Addr a)]))) as CS.
  destruct (collect _ _ _) as [[r|e] s']; cbn in *; congruence.
Qed.

(** C10: every method keeps the stored handle from being a NULL pointer
    object: a handle that is not NULL stays so, every method that checks the
    handle leaves it [None] or valid whatever it was before, and no event of
    a method passes or dereferences a NULL store pointer. *)
Theorem handle_never_null (o : op) (s : State) :
  (handle_invariant s -> handle_invariant (step o s)) /\
  (o <> OpUnlink -> handle_invariant (step o s)) /\
  (exists new, trace (step o s) = trace s ++ new /\ Forall no_null_event new).
Proof.
  unfold handle_invariant.
  destruct o; unfold step; try rewrite get_status_state;
    destruct s as [[[|a]|] f m t]; unfold_methods; cbn.
  all: repeat match goal with
         | |- context [shared_memory_kv_create ?a ?b] =>
             destruct (shared_memory_kv_create a b) as [[[|?] ?] ?]; cbn
         | |- context [shared_memory_kv_open ?a ?b] =>
             destruct (shared_memory_kv_open a b) as [[[|?] ?] ?]; cbn
         | |- context [shared_memory_kv_unlink ?a] =>
             destruct (shared_memory_kv_unlink a) as [? ?]; cbn
         | |- context [encode_utf8 ?k] => destruct (encode_utf8 k); cbn
         | |- context [len ?b >=? ?n] => destruct (len b >=? n); cbn
         | |- context [shared_memory_kv_set ?a ?b ?c ?d] =>
             destruct (shared_memory_kv_set a b c d) as [? ?]; cbn
         | |- context [shared_memory_kv_get ?a ?b ?c ?d] =>
             destruct (shared_memory_kv_get a b c d) as [[? ?] ?]; cbn
         | |- context [?r =? ?n] => destruct (r =? n); cbn
         | |- context [decode_utf8 ?k] => destruct (decode_utf8 k); cbn
         end.
  all: repeat split; try congruence; intros.
  all: try (exists []; rewrite app_nil_r; split; [reflexivity | constructor]).
  all: try (eexists; split; [reflexivity |
              repeat constructor; cbn; congruence]).
Qed.

(** [set] on a usable handle, with both strings encoded: the two length
    checks in their order, then the engine. *)
Lemma set_initialized (s : State) (k v : pystr) (kb vb : bytes) :
  initialized s -> encode_utf8 k = Some kb -> encode_utf8 v = Some vb ->
  fst (set k v s) =
  if len kb >=? KEY_SIZE then Return (false, Some msg_key_too_long)
  else if len vb >=? VALUE_SIZE then Return (false, Some msg_value_too_long)
  else
    let r := shared_memory_kv_set (shm s) (the_ptr (store_ptr s)) kb vb in
    if fst r =? -1
    then Return (false, Some (msg_error_setting (get_errno (snd r))))
    else Return (true, None).
Proof.
  destruct s as [p f m t]; intros [a Ha] Hk Hv; cbn in Ha; subst.
  unfold_methods; cbn. rewrite Hk, Hv; cbn.
  destruct (len kb >=? KEY_SIZE); cbn; [reflexivity|].
  destruct (len vb >=? VALUE_SIZE); cbn; [reflexivity|].
  destruct (shared_memory_kv_set _ _ _ _) as [r m']; cbn.
  destruct (r =? -1); reflexivity.
Qed.

(** [get] on a usable handle, with the key encoded. *)
Lemma get_initialized (s : State) (k : pystr) (kb : bytes) :
  initialized s -> encode_utf8 k = Some kb ->
  fst (get k s) =
  if len kb >=? KEY_SIZE then Return (None, Some msg_key_too_long)
  else
    let r := shared_memory_kv_get (shm s) (the_ptr (store_ptr s)) kb
               (repeat 0 (Z.to_nat VALUE_SIZE)) in
    if fst (fst r) =? -1 then
      if get_errno (snd r) =? 2 then Return (None, Some msg_key_not_found)
      else Return (None, Some (msg_error_getting (get_errno (snd r))))
    else
      match decode_utf8 (c_chars VALUE_SIZE (snd (fst r))) with
      | Some value_str => Return (Some value_str, None)
      | None => Raise UnicodeDecodeError
      end.
Proof.
  destruct s as [p f m t]; intros [a Ha] Hk; cbn in Ha; subst.
  unfold_methods; cbn -[repeat]. rewrite Hk; cbn -[repeat].
  destruct (len kb >=? KEY_SIZE); cbn -[repeat]; [reflexivity|].
  destruct (shared_memory_kv_get _ _ _ _) as [[r buf] m']; cbn.
  destruct (r =? -1); cbn.
  - destruct (get_errno m' =? 2); reflexivity.
  - destruct (decode_utf8 _); reflexivity.
Qed.

(** C1, as amended: on a usable handle and for strings that have a UTF-8
    encoding, [set] fails with the key-too-long error iff the encoded key
    has at least KEY_SIZE bytes, and with the value-too-long error iff the
    key is short enough and the encoded value has at least VALUE_SIZE bytes
    (the key is checked first); [get] applies the same key check.  A key of
    exactly KEY_SIZE bytes fails, one of KEY_SIZE-1 bytes passes the check. *)
Theorem length_validation (s : State) (k v : pystr) (kb vb : bytes)
    (Hs : initialized s)
    (Hk : encode_utf8 k = Some kb) (Hv : encode_utf8 v = Some vb) :
  (fst (set k v s) = Return (false, Some msg_key_too_long)
   <-> len kb >= KEY_SIZE) /\
  (fst (set k v s) = Return (false, Some msg_value_too_long)
   <-> len kb < KEY_SIZE /\ len vb >= VALUE_SIZE) /\
  (fst (get k s) = Return (None, Some msg_key_too_long)
   <-> len kb >= KEY_SIZE) /\
  (len kb = KEY_SIZE ->
   fst (set k v s) = Return (false, Some msg_key_too_long) /\
   fst (get k s) = Return (None, Some msg_key_too_long)) /\
  (len kb = KEY_SIZE - 1 ->
   fst (set k v s) <> Return (false, Some msg_key_too_long) /\
   fst (get k s) <> Return (None, Some msg_key_too_long)).
Proof.
  rewrite (set_initialized s k v kb vb Hs Hk Hv).
  rewrite (get_initialized s k kb Hs Hk).
  rewrite !Z.geb_leb.
  destruct (Z.leb_spec KEY_SIZE (len kb)) as [K | K];
    destruct (Z.leb_spec VALUE_SIZE (len vb)) as [V | V]; cbn zeta.
  all: repeat match goal with
         | |- context [if ?c then _ else _] => destruct c
         | |- context [match ?c with Some _ => _ | None => _ end] => destruct c
         end.
  all: repeat split; intros; try lia; try reflexivity; try discriminate.
  all: intuition (try lia; try discriminate).
Qed.

(** C9, as amended: the limits count UTF-8 bytes.  On a usable handle and
    for a key and a value that both have a UTF-8 encoding, a key whose
    encoding has at least KEY_SIZE bytes makes [set] and [get] fail with the
    key-too-long error, and a value whose encoding has at least VALUE_SIZE
    bytes makes [set] fail with a too-long error (the key's, when the key
    is too long as well), however few characters the strings have. *)
Theorem limits_count_utf8_bytes (s : State) (k v : pystr) (kb vb : bytes)
    (Hs : initialized s)
    (Hk : encode_utf8 k = Some kb) (Hv : encode_utf8 v = Some vb) :
  (len kb >= KEY_SIZE ->
   fst (set k v s) = Return (false, Some msg_key_too_long) /\
   fst (get k s) = Return (None, Some msg_key_too_long)) /\
  (len vb >= VALUE_SIZE ->
   fst (set k v s) =
   Return (false, Some (if len kb >=? KEY_SIZE then msg_key_too_long
                        else msg_value_too_long))).
Proof.
  rewrite (set_initialized s k v kb vb Hs Hk Hv).
  rewrite (get_initialized s k kb Hs Hk).
  rewrite !Z.geb_leb.
  destruct (Z.leb_spec KEY_SIZE (len kb)) as [K | K];
    destruct (Z.leb_spec VALUE_SIZE (len vb)) as [V | V]; cbn zeta.
  all: repeat split; intros; try lia; reflexivity.
Qed.

(** What [destroy] leaves behind. *)
Lemma destroy_state (s : State) :
  snd (destroy s) =
  match store_ptr s with
  | Some (Addr a) =>
      mkState None (-1) (shared_memory_kv_destroy (shm s) (fd s) (Addr a))
              (trace s ++ [CallDestroy (fd s) (Addr a)])
  | _ => mkState None (fd s) (shm s) (trace s)
  end.
Proof.
  destruct s as [[[|a]|] f m t]; reflexivity.
Qed.

Lemma destroy_calls_app (t u : list event) :
  destroy_calls (t ++ u) = (destroy_calls t + destroy_calls u)%nat.
Proof.
  unfold destroy_calls. rewrite filter_app, length_app. reflexivity.
Qed.

(** C7, as amended: [destroy] twice leaves what [destroy] once leaves; after
    it the store pointer is [None], and the descriptor is -1 when the handle
    was usable (a handle that was not keeps its descriptor); the engine's
    destroy is called once for a usable handle and not at all otherwise, and
    on a handle whose pointer is [None] nothing changes. *)
Theorem destroy_idempotent (s : State) :
  snd (destroy (snd (destroy s))) = snd (destroy s) /\
  fst (destroy s) = Return tt /\
  store_ptr (snd (destroy s)) = None /\
  (initialized s ->
   fd (snd (destroy s)) = -1 /\
   destroy_calls (trace (snd (destroy (snd (destroy s)))))
   = S (destroy_calls (trace s))) /\
  (uninitialized s ->
   fd (snd (destroy s)) = fd s /\
   shm (snd (destroy s)) = shm s /\
   trace (snd (destroy (snd (destroy s)))) = trace s) /\
  (store_ptr s = None -> snd (destroy s) = s).
Proof.
  rewrite !destroy_state.
  destruct s as [[[|a]|] f m t]; cbn; repeat split; intros; try reflexivity.
  all: try match goal with
         | H : initialized _ |- _ => destruct H as [? H]; cbn in H; discriminate
         | H : uninitialized _ |- _ => destruct H as [H | H]; cbn in H; discriminate
         end.
  all: try discriminate.
  fold (destroy_calls (t ++ [CallDestroy f (Addr a)])). fold (destroy_calls t).
  rewrite destroy_calls_app. cbn. lia.
Qed.

(** The loop of [get_status] over slots that hold UTF-8: it returns the
    views of the occupied ones, in order. *)
Lemma collect_entries (st : SharedMemoryKVStore) (idx : list nat) (s : State) :
  Forall (fun p => slot_view p <> None) (filter occupied (map (table_at st) idx)) ->
  exists entries,
    collect st idx s = (Return entries, s) /\
    map Some entries = map slot_view (filter occupied (map (table_at st) idx)).
Proof.
  induction idx as [|i idx IH]; cbn [collect map filter]; intros F.
  - exists []. split; reflexivity.
  - fold (occupied (table_at st i)).
    destruct (occupied (table_at st i)) eqn:O.
    + inversion F as [|p l Hp Hl]; subst.
      destruct (IH Hl) as [entries [E1 E2]].
      destruct (slot_view (table_at st i)) as [e|] eqn:SV; [|congruence].
      exists (e :: entries). split; [|cbn [map]; rewrite SV, E2; reflexivity].
      unfold slot_view in SV. unfold bind, decode, ret.
      destruct (decode_utf8 (c_chars KEY_SIZE (key (table_at st i)))) as [ks|];
        [|discriminate].
      destruct (decode_utf8 (c_chars VALUE_SIZE (value (table_at st i)))) as [vs|];
        [|discriminate].
      rewrite E1. injection SV as <-. reflexivity.
    + exact (IH F).
Qed.

(** A slot is occupied iff the first byte of its key is not the
    terminator. *)
Lemma occupied_first_byte (p : KVPair) :
  occupied p = negb (hd 0 (key p) =? 0).
Proof.
  unfold occupied, c_chars. destruct (key p) as [|b r]; [reflexivity|].
  replace (Z.to_nat KEY_SIZE) with (S 63) by reflexivity.
  rewrite firstn_cons. cbn [c_string hd].
  destruct (b =? 0); [reflexivity|].
  remember (c_string (firstn 63 r)) as l eqn:El. clear El.
  unfold len. cbn [List.length].
  destruct (Z.eqb_spec (Z.of_nat (S (List.length l))) 0); [lia | reflexivity].
Qed.

(** C4, as amended: on a usable handle whose occupied slots hold UTF-8 keys
    and values, [get_status] returns the version, the entry count, the
    capacity 10 and the views (key, value, timestamp) of exactly the slots
    whose key is not empty, in index order; a slot counts as empty iff the
    first byte of its key is the terminator; and [get_status] changes
    neither the segment nor the handle, whatever the slots hold. *)
Theorem get_status_snapshot (s : State) (a : Z)
    (Hs : store_ptr s = Some (Addr a)) :
  (Forall (fun p => slot_view p <> None)
          (filter occupied (slots (contents (shm s) a))) ->
   exists entries,
     fst (get_status s) =
     Return (Some (mkStatus (version (contents (shm s) a))
                            (entry_count (contents (shm s) a))
                            10 entries)) /\
     map Some entries = map slot_view (filter occupied (slots (contents (shm s) a)))) /\
  (forall p, occupied p = negb (hd 0 (key p) =? 0)) /\
  shm (snd (get_status s)) = shm s /\
  store_ptr (snd (get_status s)) = store_ptr s /\
  fd (snd (get_status s)) = fd s.
Proof.
  split; [|split; [exact occupied_first_byte|]].
  - intros F. destruct s as [p f m t]; cbn in Hs; subst.
    destruct (collect_entries (contents m a) (seq 0 MAX_ENTRIES)
                (mkState (Some (Addr a)) f m (t ++ [Deref (Addr a)])) F)
      as [entries [E1 E2]].
    exists entries. split; [|exact E2].
    unfold_methods; cbn -[collect seq]. rewrite E1. reflexivity.
  - rewrite get_status_state, Hs. cbn. auto.
Qed.

(** C5, as amended: [get_status] makes no call into the engine, so it takes
    no Guard: on a usable handle all it does is dereference the store
    pointer on the Python side, and it leaves the segment as it was. *)
Theorem get_status_takes_no_guard (s : State) :
  (exists new, trace (snd (get_status s)) = trace s ++ new /\
               Forall (fun e => is_engine_call e = false) new) /\
  (forall a, store_ptr s = Some (Addr a) ->
             trace (snd (get_status s)) = trace s ++ [Deref (Addr a)]) /\
  shm (snd (get_status s)) = shm s.
Proof.
  rewrite get_status_state.
  destruct s as [[[|a]|] f m t]; cbn; repeat split.
  all: try (intros b Hb; congruence).
  all: try (exists []; rewrite app_nil_r; split; [reflexivity | constructor]).
  eexists; split; [reflexivity | repeat constructor].
Qed.

Ltac startup_case new :=
  split;
  [ exists new; rewrite <- ?app_assoc; cbn;
    repeat split; intros; auto; intuition discriminate
  | repeat split; intros; try discriminate; try tauto;
    try (do 2 eexists; split; reflexivity) ].

(** C8: with the library in place, start-up first calls [open()]; it calls
    [create()] iff that [open()] failed; if both fail it ends in
    [sys.exit(1)]; and it reaches the point where requests are served only
    with a usable handle.  Without the library it exits at once. *)
Theorem startup_open_then_create (sv : @Server Shm) :
  (exists new,
     srv_trace (snd (lifespan_startup true true sv)) = srv_trace sv ++ CallOpen :: new /\
     ~ In CallOpen new /\
     (In CallCreate new <-> open_fails (srv_shm sv) = true)) /\
  (open_fails (srv_shm sv) = true -> create_fails (srv_shm sv) = true ->
   fst (lifespan_startup true true sv) = Raise (SystemExit 1)) /\
  (fst (lifespan_startup true true sv) = Return tt ->
   exists w a, kv_store (snd (lifespan_startup true true sv)) = Some w /\
               w_store_ptr w = Some (Addr a)) /\
  (forall cdll_ok, lifespan_startup false cdll_ok sv = (Raise (SystemExit 1), sv)) /\
  lifespan_startup true false sv = (Raise (SystemExit 1), sv).
Proof.
  unfold open_fails, create_fails, create_result, open_result.
  unfold lifespan_startup, lifespan_try, init_wrapper, call.
  destruct sv as [kv m t].
  unfold create, open, _check_store, bind, ret, read, emit, set_store_ptr,
    set_fd, set_shm.
  cbn -[get_status].
  destruct (shared_memory_kv_open m (-1)) as [[[|a] f1] m1]; cbn -[get_status].
  - destruct (shared_memory_kv_create m1 f1) as [[[|a2] f2] m2]; cbn -[get_status].
    + startup_case [CallCreate].
    + pose proof (get_status_state
                    (mkState (Some (Addr a2)) f2 m2 ((t ++ [CallOpen]) ++ [CallCreate])))
        as GS.
      destruct (get_status _) as [[r|e] s']; cbn in GS; subst s'; cbn;
        [|destruct e; cbn]; startup_case [CallCreate; Deref (Addr a2)].
  - pose proof (get_status_state (mkState (Some (Addr a)) f1 m1 (t ++ [CallOpen])))
      as GS.
    destruct (get_status _) as [[r|e] s']; cbn in GS; subst s'; cbn;
      [|destruct e; cbn]; startup_case [Deref (Addr a)].
Qed.

End Properties.

(** ** Error messages and the status codes chosen from them *)

Lemma prefix_occurs (n s : string) (c : ascii) :
  prefix n s = true -> occurs c n = true -> occurs c s = true.
Proof.
  revert s; induction n as [|a n IH]; intros s P O; [discriminate|].
  destruct s as [|b s]; [discriminate|].
  cbn in P. destruct (ascii_dec a b) as [<-|]; [|discriminate].
  cbn in O |- *. destruct (Ascii.eqb c a); [reflexivity|].
  cbn in O |- *. exact (IH s P O).
Qed.

(** A string that contains [n] has every character of [n]. *)
Lemma contains_occurs (n s : string) (c : ascii) :
  contains n s = true -> occurs c n = true -> occurs c s = true.
Proof.
  intros C O. induction s as [|b s IH].
  - cbn [contains] in C. destruct (prefix n EmptyString) eqn:P; [|discriminate].
    exact (prefix_occurs _ _ _ P O).
  - cbn [contains] in C. destruct (prefix n (String b s)) eqn:P.
    + exact (prefix_occurs _ _ _ P O).
    + cbn. rewrite (IH C). apply orb_true_r.
Qed.

Lemma occurs_app (c : ascii) (a b : string) :
  occurs c (a ++ b) = occurs c a || occurs c b.
Proof.
  induction a as [|x a IH]; cbn; [reflexivity|].
  rewrite IH. apply orb_assoc.
Qed.

Lemma lower_app (a b : string) : lower (a ++ b) = (lower a ++ lower b)%string.
Proof.
  induction a as [|x a IH]; cbn; [reflexivity|]. now rewrite IH.
Qed.

Lemma numeric_uint (d : Decimal.uint) :
  all_chars is_numeric (NilEmpty.string_of_uint d) = true.
Proof.
  induction d; cbn; auto.
Qed.

Lemma numeric_str_of_int (n : Z) : all_chars is_numeric (str_of_int n) = true.
Proof.
  assert (U : forall d, all_chars is_numeric (NilZero.string_of_uint d) = true).
  { intros d; destruct d; try reflexivity;
      match goal with
      | |- all_chars _ (NilZero.string_of_uint ?x) = true => exact (numeric_uint x)
      end. }
  unfold str_of_int, NilZero.string_of_int.
  destruct (Z.to_int n) as [d | d]; [apply U|].
  cbn [all_chars]. rewrite U. reflexivity.
Qed.

Lemma lower_numeric (s : string) : all_chars is_numeric s = true -> lower s = s.
Proof.
  induction s as [|a s IH]; cbn; [reflexivity|].
  intros H. apply andb_prop in H as [Ha Hs]. rewrite (IH Hs). f_equal.
  destruct a as [[|] [|] [|] [|] [|] [|] [|] [|]]; cbn in Ha |- *;
    try discriminate; reflexivity.
Qed.

Lemma occurs_numeric (c : ascii) (s : string) :
  is_numeric c = false -> all_chars is_numeric s = true -> occurs c s = false.
Proof.
  intros Hc. induction s as [|a s IH]; cbn; [reflexivity|].
  intros H. apply andb_prop in H as [Ha Hs]. rewrite (IH Hs).
  destruct (Ascii.eqb_spec c a) as [->|]; [congruence | reflexivity].
Qed.

(** The message of a failed engine [set] never selects 507: it has neither
    "full" nor "ENOSPC" in it, whatever the errno. *)
Lemma error_setting_selects_no_507 (errno_val : Z) :
  contains "full" (lower (msg_error_setting errno_val)) = false /\
  contains "ENOSPC" (msg_error_setting errno_val) = false.
Proof.
  pose proof (numeric_str_of_int errno_val) as N.
  unfold msg_error_setting. split.
  - destruct (contains "full" _) eqn:C; [|reflexivity].
    apply (contains_occurs _ _ "f"%char) in C; [|reflexivity].
    rewrite lower_app, occurs_app, (lower_numeric _ N) in C.
    rewrite (occurs_numeric "f"%char _ eq_refl N) in C. discriminate.
  - destruct (contains "ENOSPC" _) eqn:C; [|reflexivity].
    apply (contains_occurs _ _ "N"%char) in C; [|reflexivity].
    rewrite occurs_app in C.
    rewrite (occurs_numeric "N"%char _ eq_refl N) in C. discriminate.
Qed.

Section Service.

Context {Shm : Type} {lib : Engine Shm}.

(** The results [set] can have. *)
Lemma set_results (s : @State Shm) (k v : pystr) :
  fst (set k v s) = Raise UnicodeEncodeError \/
  fst (set k v s) = Return (true, None) \/
  fst (set k v s) = Return (false, Some msg_not_initialized) \/
  fst (set k v s) = Return (false, Some msg_key_too_long) \/
  fst (set k v s) = Return (false, Some msg_value_too_long) \/
  exists errno_val, fst (set k v s) = Return (false, Some (msg_error_setting errno_val)).
Proof.
  destruct s as [[[|a]|] f m t];
    unfold set, _check_store, encode, bind, ret, raise, read, emit,
      set_store_ptr, set_shm; cbn; auto.
  destruct (encode_utf8 k); cbn; auto.
  destruct (encode_utf8 v); cbn; auto.
  destruct (len b >=? KEY_SIZE); cbn; auto.
  destruct (len b0 >=? VALUE_SIZE); cbn; auto 6.
  destruct (shared_memory_kv_set _ _ _ _) as [r m']; cbn.
  destruct (r =? -1); cbn; eauto 10.
Qed.

(** [POST /set] never answers 507, on any engine and for any errno. *)
Lemma set_value_never_507 (sv : @Server Shm) (k v : pystr) (detail : string) :
  fst (set_value k v sv) <> Raise (HTTPException 507 detail).
Proof.
  unfold set_value. destruct (kv_store sv) as [w|]; [|discriminate].
  unfold call.
  pose proof (set_results (mkState (w_store_ptr w) (w_fd w) (srv_shm sv) (srv_trace sv))
                k v) as R.
  destruct (set k v _) as [r s']; cbn [fst] in R.
  destruct R as [R | [R | [R | [R | [R | [e R]]]]]]; subst r;
    try (cbn; discriminate).
  cbn -[contains lower msg_error_setting].
  destruct (error_setting_selects_no_507 e) as [F N]. rewrite F, N.
  destruct (contains "too long" _); discriminate.
Qed.

(** The status codes that do follow the documented mapping: 503 while the
    module has no wrapper, 404 for the wrapper's "Key not found", 413 for
    its two too-long errors. *)
Lemma documented_status_codes (sv : @Server Shm) (k v : pystr) :
  (kv_store sv = None ->
   fst (get_value k sv) = Raise (HTTPException 503 "Store not initialized") /\
   fst (set_value k v sv) = Raise (HTTPException 503 "Store not initialized")) /\
  (forall w, kv_store sv = Some w ->
   fst (get k (wrapper_state w sv)) = Return (None, Some msg_key_not_found) ->
   fst (get_value k sv) = Raise (HTTPException 404 msg_key_not_found)) /\
  (forall w error, kv_store sv = Some w ->
   fst (set k v (wrapper_state w sv)) = Return (false, Some error) ->
   error = msg_key_too_long \/ error = msg_value_too_long ->
   fst (set_value k v sv) = Raise (HTTPException 413 error)).
Proof.
  unfold get_value, set_value, call, wrapper_state.
  repeat split.
  - rewrite H. reflexivity.
  - rewrite H. reflexivity.
  - intros w Hw R. rewrite Hw. destruct (get k _) as [r s']; cbn in R; subst r.
    reflexivity.
  - intros w error Hw R E. rewrite Hw.
    destruct (set k v _) as [r s']; cbn in R; subst r.
    destruct E as [-> | ->]; reflexivity.
Qed.

(** A wrapper without a usable handle is answered with 500 and 400, not
    with 503. *)
Lemma uninitialized_wrapper_status_codes (sv : @Server Shm) (w : Wrapper)
    (k v : pystr) :
  kv_store sv = Some w -> uninitialized (wrapper_state w sv) ->
  fst (get_value k sv) = Raise (HTTPException 500 "Store not initialized") /\
  fst (set_value k v sv) = Raise (HTTPException 400 "Store not initialized").
Proof.
  intros Hw U. unfold get_value, set_value, call. rewrite Hw.
  fold (wrapper_state w sv).
  pose proof (check_store_uninitialized (wrapper_state w sv) U) as C.
  unfold set, get, bind. rewrite C. split; reflexivity.
Qed.

End Service.

(** ** UTF-8: bit operations as arithmetic *)

Lemma land_low_high (h b n : Z) :
  0 <= n -> 0 <= b < 2 ^ n -> Z.land (h * 2 ^ n) b = 0.
Proof.
  intros Hn Hb. apply Z.bits_inj'. intros i Hi.
  rewrite Z.land_spec, Z.bits_0.
  destruct (Z.lt_ge_cases i n) as [L | G].
  - rewrite Z.mul_pow2_bits_low by assumption. reflexivity.
  - destruct (Z.eq_dec b 0) as [-> | Nz].
    + rewrite Z.bits_0. apply andb_false_r.
    + rewrite (Z.bits_above_log2 b i); [apply andb_false_r | lia |].
      apply Z.log2_lt_pow2; [lia|].
      apply Z.lt_le_trans with (2 ^ n); [lia|].
      apply Z.pow_le_mono_r; lia.
Qed.

Lemma lor_high_low (h b n : Z) :
  0 <= n -> 0 <= b < 2 ^ n -> Z.lor (h * 2 ^ n) b = h * 2 ^ n + b.
Proof.
  intros Hn Hb. pose proof (land_low_high h b n Hn Hb) as L.
  rewrite <- Z.lxor_lor by exact L. symmetry. apply Z.add_nocarry_lxor. exact L.
Qed.

Lemma land_payload (b n : Z) : 0 <= n -> Z.land b (Z.ones n) = b mod 2 ^ n.
Proof. intros. apply Z.land_ones. assumption. Qed.

Lemma cont_byte (x : Z) : Z.lor 128 (Z.land x 63) = 128 + x mod 64.
Proof.
  change 63 with (Z.ones 6). rewrite land_payload by lia.
  change 128 with (2 * 2 ^ 6) at 1. rewrite lor_high_low; [reflexivity | lia |].
  apply Z.mod_pos_bound. reflexivity.
Qed.

Lemma shiftr_div (c n : Z) : 0 <= n -> Z.shiftr c n = c / 2 ^ n.
Proof. intros. apply Z.shiftr_div_pow2. assumption. Qed.

Lemma lead2 (c : Z) : 0 <= c < 2048 -> Z.lor 192 (Z.shiftr c 6) = 192 + c / 64.
Proof.
  intros H. rewrite shiftr_div by lia. change (2 ^ 6) with 64.
  change 192 with (3 * 2 ^ 6) at 1. rewrite lor_high_low; [reflexivity | lia |].
  change (2 ^ 6) with 64. Z.div_mod_to_equations. lia.
Qed.

Lemma lead3 (c : Z) : 0 <= c < 65536 -> Z.lor 224 (Z.shiftr c 12) = 224 + c / 4096.
Proof.
  intros H. rewrite shiftr_div by lia. change (2 ^ 12) with 4096.
  change 224 with (7 * 2 ^ 5) at 1. rewrite lor_high_low; [reflexivity | lia |].
  change (2 ^ 5) with 32. Z.div_mod_to_equations. lia.
Qed.

Lemma lead4 (c : Z) :
  0 <= c < 1114112 -> Z.lor 240 (Z.shiftr c 18) = 240 + c / 262144.
Proof.
  intros H. rewrite shiftr_div by lia. change (2 ^ 18) with 262144.
  change 240 with (15 * 2 ^ 4) at 1. rewrite lor_high_low; [reflexivity | lia |].
  change (2 ^ 4) with 16. Z.div_mod_to_equations. lia.
Qed.

Lemma join2 (x y : Z) : 0 <= y < 64 -> Z.lor (Z.shiftl x 6) y = x * 64 + y.
Proof.
  intros H. rewrite Z.shiftl_mul_pow2 by lia.
  rewrite lor_high_low; [reflexivity | lia | exact H].
Qed.

Lemma join3 (x y z : Z) :
  0 <= y < 64 -> 0 <= z < 64 ->
  Z.lor (Z.shiftl x 12) (Z.lor (Z.shiftl y 6) z) = x * 4096 + y * 64 + z.
Proof.
  intros Hy Hz. rewrite (join2 y z Hz). rewrite Z.shiftl_mul_pow2 by lia.
  rewrite lor_high_low; [change (2 ^ 12) with 4096; lia | lia |].
  change (2 ^ 12) with 4096. lia.
Qed.

Lemma join4 (w x y z : Z) :
  0 <= x < 64 -> 0 <= y < 64 -> 0 <= z < 64 ->
  Z.lor (Z.shiftl w 18) (Z.lor (Z.shiftl x 12) (Z.lor (Z.shiftl y 6) z))
  = w * 262144 + x * 4096 + y * 64 + z.
Proof.
  intros Hx Hy Hz. rewrite (join3 x y z Hy Hz). rewrite Z.shiftl_mul_pow2 by lia.
  rewrite lor_high_low; [change (2 ^ 18) with 262144; lia | lia |].
  change (2 ^ 18) with 262144. lia.
Qed.

Lemma payload6 (b : Z) : Z.land b 63 = b mod 64.
Proof. change 63 with (Z.ones 6). now rewrite land_payload by lia. Qed.

Lemma payload5 (b : Z) : Z.land b 31 = b mod 32.
Proof. change 31 with (Z.ones 5). now rewrite land_payload by lia. Qed.

Lemma payload4 (b : Z) : Z.land b 15 = b mod 16.
Proof. change 15 with (Z.ones 4). now rewrite land_payload by lia. Qed.

Lemma payload3 (b : Z) : Z.land b 7 = b mod 8.
Proof. change 7 with (Z.ones 3). now rewrite land_payload by lia. Qed.

(** The encoding of a code point, without bit operations. *)
Lemma encode_char_arith (c : Z) :
  encode_char c =
  if c <? 0 then None
  else if c <? 128 then Some [c]
  else if c <? 2048 then Some [192 + c / 64; 128 + c mod 64]
  else if c <? 65536 then
    if (55296 <=? c) && (c <=? 57343) then None
    else Some [224 + c / 4096; 128 + (c / 64) mod 64; 128 + c mod 64]
  else if c <? 1114112 then
    Some [240 + c / 262144; 128 + (c / 4096) mod 64;
          128 + (c / 64) mod 64; 128 + c mod 64]
  else None.
Proof.
  unfold encode_char.
  destruct (Z.ltb_spec c 0); [reflexivity|].
  destruct (Z.ltb_spec c 128); [reflexivity|].
  destruct (Z.ltb_spec c 2048).
  { rewrite lead2, cont_byte by lia. reflexivity. }
  destruct (Z.ltb_spec c 65536).
  { destruct ((55296 <=? c) && (c <=? 57343)); [reflexivity|].
    rewrite lead3, !cont_byte by lia.
    rewrite (shiftr_div c 6) by lia. reflexivity. }
  destruct (Z.ltb_spec c 1114112); [|reflexivity].
  rewrite lead4, !cont_byte by lia.
  rewrite (shiftr_div c 6), (shiftr_div c 12) by lia. reflexivity.
Qed.

Lemma some_inj {A} (x y : A) : Some x = Some y -> x = y.
Proof. intros [= E]. exact E. Qed.

Ltac take_bytes := let E := fresh in intros E; apply some_inj in E; subst.

Ltac ranges :=
  unfold in_range, is_cont;
  repeat match goal with
         | |- context [?a =? ?b] => destruct (Z.eqb_spec a b)
         end;
  cbv iota;
  repeat match goal with
         | |- context [?a <=? ?b] => destruct (Z.leb_spec a b)
         end;
  cbn [andb]; try reflexivity; try (exfalso; Z.div_mod_to_equations; lia).

(** Decoding undoes the encoding of one code point, whatever follows. *)
Lemma decode_encode_char (c : Z) (b rest : bytes) :
  encode_char c = Some b ->
  decode_utf8 (b ++ rest) = option_map (cons c) (decode_utf8 rest).
Proof.
  rewrite encode_char_arith.
  destruct (Z.ltb_spec c 0); [discriminate|].
  destruct (Z.ltb_spec c 128).
  { take_bytes. cbn -[Z.add Z.div Z.modulo Z.mul in_range is_cont Z.lor Z.shiftl Z.land Z.eqb].
    replace (in_range 0 127 c) with true by ranges. reflexivity. }
  destruct (Z.ltb_spec c 2048).
  { take_bytes. cbn -[Z.add Z.div Z.modulo Z.mul in_range is_cont Z.lor Z.shiftl Z.land Z.eqb].
    replace (in_range 0 127 (192 + c / 64)) with false by ranges.
    replace (in_range 194 223 (192 + c / 64)) with true by ranges.
    replace (is_cont (128 + c mod 64)) with true by ranges.
    rewrite payload5, payload6, join2 by (Z.div_mod_to_equations; lia).
    do 2 f_equal. Z.div_mod_to_equations; lia. }
  destruct (Z.ltb_spec c 65536).
  { destruct (Z.leb_spec 55296 c); destruct (Z.leb_spec c 57343); cbn [andb];
      try discriminate; take_bytes;
      cbn -[Z.add Z.div Z.modulo Z.mul in_range is_cont Z.lor Z.shiftl Z.land Z.eqb];
      replace (in_range 0 127 (224 + c / 4096)) with false by ranges;
      replace (in_range 194 223 (224 + c / 4096)) with false by ranges;
      replace (in_range 224 239 (224 + c / 4096)) with true by ranges;
      replace (is_cont (128 + c mod 64)) with true by ranges;
      match goal with
      | |- context [in_range ?lo ?hi (128 + (c / 64) mod 64)] =>
          replace (in_range lo hi (128 + (c / 64) mod 64)) with true by ranges
      end;
      cbn [andb]; rewrite payload4, !payload6, join3
        by (Z.div_mod_to_equations; lia);
      do 2 f_equal; Z.div_mod_to_equations; lia. }
  destruct (Z.ltb_spec c 1114112); [|discriminate].
  take_bytes. cbn -[Z.add Z.div Z.modulo Z.mul in_range is_cont Z.lor Z.shiftl Z.land Z.eqb].
  replace (in_range 0 127 (240 + c / 262144)) with false by ranges.
  replace (in_range 194 223 (240 + c / 262144)) with false by ranges.
  replace (in_range 224 239 (240 + c / 262144)) with false by ranges.
  replace (in_range 240 244 (240 + c / 262144)) with true by ranges.
  replace (is_cont (128 + c mod 64)) with true by ranges.
  replace (is_cont (128 + (c / 64) mod 64)) with true by ranges.
  match goal with
  | |- context [in_range ?lo ?hi (128 + (c / 4096) mod 64)] =>
      replace (in_range lo hi (128 + (c / 4096) mod 64)) with true by ranges
  end.
  cbn [andb]. rewrite payload3, !payload6, join4 by (Z.div_mod_to_equations; lia).
  do 2 f_equal. Z.div_mod_to_equations; lia.
Qed.

(** Round trip: what [encode] produces, [decode] reads back. *)
Theorem decode_after_encode (s : pystr) (b : bytes) :
  encode_utf8 s = Some b -> decode_utf8 b = Some s.
Proof.
  revert b. induction s as [|c s IH]; cbn [encode_utf8]; intros b.
  - intros [= <-]. reflexivity.
  - destruct (encode_char c) as [bc|] eqn:Ec; [|discriminate].
    destruct (encode_utf8 s) as [bs|]; [|discriminate].
    intros [= <-]. rewrite (decode_encode_char c bc bs Ec), (IH bs eq_refl).
    reflexivity.
Qed.

Ltac range_hyps :=
  repeat match goal with
         | H : in_range _ _ _ = true |- _ => unfold in_range in H
         | H : is_cont _ = true |- _ => unfold is_cont in H
         | H : (_ && _) = true |- _ =>
             let H1 := fresh H in apply andb_prop in H; destruct H as [H H1]
         | H : (_ <=? _) = true |- _ => apply Z.leb_le in H
         end.

Lemma encode_one (b0 : Z) :
  in_range 0 127 b0 = true -> encode_char b0 = Some [b0].
Proof.
  intros H. range_hyps. rewrite encode_char_arith.
  destruct (Z.ltb_spec b0 0); [lia|]. destruct (Z.ltb_spec b0 128); [reflexivity | lia].
Qed.

Lemma encode_two (b0 b1 : Z) :
  in_range 194 223 b0 = true -> is_cont b1 = true ->
  encode_char (Z.lor (Z.shiftl (Z.land b0 31) 6) (Z.land b1 63)) = Some [b0; b1].
Proof.
  intros H0 H1. range_hyps.
  rewrite payload5, payload6, join2 by (Z.div_mod_to_equations; lia).
  rewrite encode_char_arith.
  repeat match goal with
         | |- context [?a <? ?b] => destruct (Z.ltb_spec a b)
         end; try (exfalso; Z.div_mod_to_equations; lia).
  do 2 f_equal; [|f_equal]; Z.div_mod_to_equations; lia.
Qed.

Lemma encode_three (b0 b1 b2 : Z) :
  in_range 224 239 b0 = true ->
  in_range (if b0 =? 224 then 160 else 128) (if b0 =? 237 then 159 else 191) b1
  && is_cont b2 = true ->
  encode_char (Z.lor (Z.shiftl (Z.land b0 15) 12)
                 (Z.lor (Z.shiftl (Z.land b1 63) 6) (Z.land b2 63)))
  = Some [b0; b1; b2].
Proof.
  intros H0 H1.
  destruct (Z.eqb_spec b0 224); destruct (Z.eqb_spec b0 237); range_hyps.
  all: rewrite payload4, !payload6, join3 by (Z.div_mod_to_equations; lia).
  all: rewrite encode_char_arith.
  all: repeat match goal with
         | |- context [?a <? ?b] => destruct (Z.ltb_spec a b)
         | |- context [?a <=? ?b] => destruct (Z.leb_spec a b)
         end; cbn [andb]; try (exfalso; Z.div_mod_to_equations; lia).
  all: do 2 f_equal; [|f_equal; [|f_equal]]; Z.div_mod_to_equations; lia.
Qed.

Lemma encode_four (b0 b1 b2 b3 : Z) :
  in_range 240 244 b0 = true ->
  in_range (if b0 =? 240 then 144 else 128) (if b0 =? 244 then 143 else 191) b1
  && is_cont b2 && is_cont b3 = true ->
  encode_char (Z.lor (Z.shiftl (Z.land b0 7) 18)
                 (Z.lor (Z.shiftl (Z.land b1 63) 12)
                    (Z.lor (Z.shiftl (Z.land b2 63) 6) (Z.land b3 63))))
  = Some [b0; b1; b2; b3].
Proof.
  intros H0 H1.
  destruct (Z.eqb_spec b0 240); destruct (Z.eqb_spec b0 244); range_hyps.
  all: rewrite payload3, !payload6, join4 by (Z.div_mod_to_equations; lia).
  all: rewrite encode_char_arith.
  all: repeat match goal with
         | |- context [?a <? ?b] => destruct (Z.ltb_spec a b)
         end; try (exfalso; Z.div_mod_to_equations; lia).
  all: do 2 f_equal; [|f_equal; [|f_equal; [|f_equal]]];
    Z.div_mod_to_equations; lia.
Qed.

(** The first code point of a decodable sequence, and the rest. *)
Lemma decode_utf8_inv (b : bytes) (s : pystr) :
  decode_utf8 b = Some s ->
  (b = [] /\ s = []) \/
  exists c bc r s',
    b = bc ++ r /\ (List.length r < List.length b)%nat /\
    encode_char c = Some bc /\ decode_utf8 r = Some s' /\ s = c :: s'.
Proof.
  destruct b as [|b0 r0]; [intros [= <-]; left; auto|]. intros H. right.
  cbn -[in_range is_cont Z.lor Z.shiftl Z.land Z.eqb] in H.
  destruct (in_range 0 127 b0) eqn:R1.
  { destruct (decode_utf8 r0) as [s'|] eqn:D; [|discriminate].
    injection H as <-. exists b0, [b0], r0, s'.
    repeat split; auto using encode_one. }
  destruct (in_range 194 223 b0) eqn:R2.
  { destruct r0 as [|b1 r1]; [discriminate|].
    destruct (is_cont b1) eqn:C1; [|discriminate].
    destruct (decode_utf8 r1) as [s'|] eqn:D; [|discriminate].
    injection H as <-.
    exists (Z.lor (Z.shiftl (Z.land b0 31) 6) (Z.land b1 63)), [b0; b1], r1, s'.
    repeat split; auto using encode_two. cbn. lia. }
  destruct (in_range 224 239 b0) eqn:R3.
  { destruct r0 as [|b1 [|b2 r2]]; try discriminate.
    match type of H with (if ?c then _ else _) = _ => destruct c eqn:C end;
      [|discriminate].
    destruct (decode_utf8 r2) as [s'|] eqn:D; [|discriminate].
    injection H as <-.
    exists (Z.lor (Z.shiftl (Z.land b0 15) 12)
              (Z.lor (Z.shiftl (Z.land b1 63) 6) (Z.land b2 63))),
      [b0; b1; b2], r2, s'.
    repeat split; auto using encode_three. cbn. lia. }
  destruct (in_range 240 244 b0) eqn:R4; [|discriminate].
  destruct r0 as [|b1 [|b2 [|b3 r3]]]; try discriminate.
  match type of H with (if ?c then _ else _) = _ => destruct c eqn:C end;
    [|discriminate].
  destruct (decode_utf8 r3) as [s'|] eqn:D; [|discriminate].
  injection H as <-.
  exists (Z.lor (Z.shiftl (Z.land b0 7) 18)
            (Z.lor (Z.shiftl (Z.land b1 63) 12)
               (Z.lor (Z.shiftl (Z.land b2 63) 6) (Z.land b3 63)))),
    [b0; b1; b2; b3], r3, s'.
  repeat split; auto using encode_four. cbn. lia.
Qed.

(** Round trip: what [decode] accepts, [encode] gives back. *)
Theorem encode_after_decode (b : bytes) (s : pystr) :
  decode_utf8 b = Some s -> encode_utf8 s = Some b.
Proof.
  remember (List.length b) as n eqn:En. revert b s En.
  induction n as [n IH] using (well_founded_induction lt_wf).
  intros b s En D.
  destruct (decode_utf8_inv b s D) as [[-> ->] | (c & bc & r & s' & -> & L & Ec & Dr & ->)];
    [reflexivity|].
  cbn [encode_utf8]. rewrite Ec.
  rewrite (IH (List.length r) ltac:(lia) r s' eq_refl Dr). reflexivity.
Qed.

(** * Further properties of the binding *)

Section Further.

Context {Shm : Type} {lib : Engine Shm}.

Local Abbreviation State := (@State Shm).

Ltac unfold_methods :=
  unfold set, get, get_status, destroy, create, open, unlink, deref,
    _check_store, encode, decode, bind, ret, raise, read, emit,
    set_store_ptr, set_fd, set_shm in *.

(** X1: [set] reports success exactly when the handle is usable, both strings
    encode to fewer bytes than their buffers hold, and the engine returned
    something other than -1. *)
Theorem set_success_iff (s : State) (k v : pystr) :
  fst (set k v s) = Return (true, None) <->
  exists a kb vb,
    store_ptr s = Some (Addr a) /\
    encode_utf8 k = Some kb /\ encode_utf8 v = Some vb /\
    len kb < KEY_SIZE /\ len vb < VALUE_SIZE /\
    fst (shared_memory_kv_set (shm s) (Addr a) kb vb) <> -1.
Proof.
  split.
  - destruct s as [[[|a]|] f m t]; unfold_methods; cbn; try discriminate.
    destruct (encode_utf8 k) as [kb|]; cbn; [|discriminate].
    destruct (encode_utf8 v) as [vb|]; cbn; [|discriminate].
    rewrite !Z.geb_leb.
    destruct (Z.leb_spec KEY_SIZE (len kb)) as [Lk|Lk]; cbn; [discriminate|].
    destruct (Z.leb_spec VALUE_SIZE (len vb)) as [Lv|Lv]; cbn; [discriminate|].
    destruct (shared_memory_kv_set m (Addr a) kb vb) as [r m'] eqn:E; cbn.
    destruct (Z.eqb_spec r (-1)) as [Hr|Hr]; cbn; [discriminate|].
    intros _. exists a, kb, vb. rewrite E. cbn. auto 10.
  - intros (a & kb & vb & P & Ek & Ev & Lk & Lv & Hr).
    destruct s as [p f m t]; cbn in P, Hr; subst p.
    unfold_methods; cbn. rewrite Ek, Ev; cbn. rewrite !Z.geb_leb.
    destruct (Z.leb_spec KEY_SIZE (len kb)); [lia|].
    destruct (Z.leb_spec VALUE_SIZE (len vb)); [lia|]. cbn.
    destruct (shared_memory_kv_set m (Addr a) kb vb) as [r m']; cbn in *.
    destruct (Z.eqb_spec r (-1)); [contradiction | reflexivity].
Qed.

(** The results [get] can have. *)
Lemma get_results (s : State) (k : pystr) :
  fst (get k s) = Raise UnicodeEncodeError \/
  fst (get k s) = Raise UnicodeDecodeError \/
  fst (get k s) = Return (None, Some msg_not_initialized) \/
  fst (get k s) = Return (None, Some msg_key_too_long) \/
  fst (get k s) = Return (None, Some msg_key_not_found) \/
  (exists errno_val, errno_val <> 2 /\
     fst (get k s) = Return (None, Some (msg_error_getting errno_val))) \/
  exists value_str, fst (get k s) = Return (Some value_str, None).
Proof.
  destruct s as [[[|a]|] f m t]; unfold_methods; cbn -[repeat]; auto.
  destruct (encode_utf8 k); cbn -[repeat]; auto.
  destruct (len b >=? KEY_SIZE); cbn -[repeat]; auto.
  destruct (shared_memory_kv_get _ _ _ _) as [[r buf] m']; cbn.
  destruct (r =? -1); cbn.
  - destruct (Z.eqb_spec (get_errno m') 2); cbn; eauto 10.
  - destruct (decode_utf8 _); cbn; eauto 10.
Qed.

(** X2: Exactly one of the two components of a result is [None]: [set] returns
    [(True, None)] or [False] with a non-empty message, [get] a value
    without a message or no value with a non-empty message. *)
Theorem results_have_value_or_error (s : State) (k v : pystr) :
  (forall ok error, fst (set k v s) = Return (ok, error) ->
     (ok = true /\ error = None) \/
     (ok = false /\ exists m, error = Some m /\ m <> EmptyString)) /\
  (forall val error, fst (get k s) = Return (val, error) ->
     (exists value_str, val = Some value_str /\ error = None) \/
     (val = None /\ exists m, error = Some m /\ m <> EmptyString)).
Proof.
  split.
  - intros ok error R.
    destruct (set_results s k v) as [E | [E | [E | [E | [E | [n E]]]]]];
      rewrite E in R; try discriminate; injection R as <- <-; auto;
      right; split; auto; eexists; split; try reflexivity; discriminate.
  - intros val error R.
    destruct (get_results s k) as [E | [E | [E | [E | [E | [[n [_ E]] | [x E]]]]]]];
      rewrite E in R; try discriminate; injection R as <- <-; eauto;
      right; split; auto; eexists; split; try reflexivity; discriminate.
Qed.

(** X3: [get] answers "Key not found" exactly when the request passed the
    checks and the engine returned -1 with errno 2. *)
Theorem get_not_found_iff (s : State) (k : pystr) :
  fst (get k s) = Return (None, Some msg_key_not_found) <->
  exists a kb,
    store_ptr s = Some (Addr a) /\ encode_utf8 k = Some kb /\
    len kb < KEY_SIZE /\
    fst (fst (shared_memory_kv_get (shm s) (Addr a) kb
                (repeat 0 (Z.to_nat VALUE_SIZE)))) = -1 /\
    get_errno (snd (shared_memory_kv_get (shm s) (Addr a) kb
                      (repeat 0 (Z.to_nat VALUE_SIZE)))) = 2.
Proof.
  split.
  - destruct s as [[[|a]|] f m t]; unfold_methods; cbn -[repeat];
      try discriminate.
    destruct (encode_utf8 k) as [kb|]; cbn -[repeat]; [|discriminate].
    rewrite Z.geb_leb.
    destruct (Z.leb_spec KEY_SIZE (len kb)) as [Lk|Lk]; cbn -[repeat];
      [discriminate|].
    destruct (shared_memory_kv_get _ _ _ _) as [[r buf] m'] eqn:E; cbn.
    destruct (Z.eqb_spec r (-1)) as [Hr|Hr]; cbn.
    + destruct (Z.eqb_spec (get_errno m') 2) as [He|He]; cbn; [|discriminate].
      intros _. exists a, kb. rewrite E. cbn. auto.
    + destruct (decode_utf8 _); discriminate.
  - intros (a & kb & P & Ek & Lk & Hr & He).
    assert (I : initialized s) by (exists a; exact P).
    rewrite (get_initialized s k kb I Ek). rewrite Z.geb_leb.
    destruct (Z.leb_spec KEY_SIZE (len kb)); [lia|].
    rewrite P. cbn [the_ptr]. cbv zeta. rewrite Hr, He. reflexivity.
Qed.

(** X4: Whatever the method and the state, the engine is only ever handed a
    key of fewer than KEY_SIZE bytes and a value of fewer than VALUE_SIZE
    bytes. *)
Theorem engine_sees_only_bounded_strings (o : op) (s : State) :
  exists new, trace (step o s) = trace s ++ new /\ Forall bounded_event new.
Proof.
  destruct o; unfold step; try rewrite get_status_state;
    destruct s as [[[|a]|] f m t]; unfold_methods; cbn -[repeat].
  all: rewrite ?Z.geb_leb.
  all: repeat match goal with
         | |- context [shared_memory_kv_create ?a ?b] =>
             destruct (shared_memory_kv_create a b) as [[[|?] ?] ?]; cbn -[repeat]
         | |- context [shared_memory_kv_open ?a ?b] =>
             destruct (shared_memory_kv_open a b) as [[[|?] ?] ?]; cbn -[repeat]
         | |- context [shared_memory_kv_unlink ?a] =>
             destruct (shared_memory_kv_unlink a) as [? ?]; cbn -[repeat]
         | |- context [encode_utf8 ?k] =>
             destruct (encode_utf8 k); cbn -[repeat]; rewrite ?Z.geb_leb
         | |- context [?n <=? len ?b] =>
             destruct (Z.leb_spec n (len b)); cbn -[repeat]; rewrite ?Z.geb_leb
         | |- context [shared_memory_kv_set ?a ?b ?c ?d] =>
             destruct (shared_memory_kv_set a b c d) as [? ?]; cbn -[repeat]
         | |- context [shared_memory_kv_get ?a ?b ?c ?d] =>
             destruct (shared_memory_kv_get a b c d) as [[? ?] ?]; cbn -[repeat]
         | |- context [?r =? ?n] => destruct (r =? n); cbn -[repeat]
         | |- context [decode_utf8 ?k] => destruct (decode_utf8 k); cbn -[repeat]
         end.
  all: try (exists []; rewrite app_nil_r; split; [reflexivity | constructor]).
  all: eexists; split; [reflexivity | repeat constructor; cbn; lia].
Qed.

(** ** C strings *)

Lemma c_string_no_zero (l : bytes) : ~ In 0 (c_string l).
Proof.
  induction l as [|b l IH]; cbn; [tauto|].
  destruct (Z.eqb_spec b 0); cbn; [tauto|]. intros [E | I]; auto.
Qed.

Lemma c_string_length (l : bytes) :
  (List.length (c_string l) <= List.length l)%nat.
Proof.
  induction l as [|b l IH]; cbn; [lia|].
  destruct (b =? 0); cbn; lia.
Qed.

Lemma c_chars_within (n : Z) (l : bytes) :
  0 <= n -> len (c_chars n l) <= n /\ ~ In 0 (c_chars n l).
Proof.
  intros Hn. unfold c_chars, len. split; [|apply c_string_no_zero].
  pose proof (c_string_length (firstn (Z.to_nat n) l)) as L.
  pose proof (firstn_le_length (Z.to_nat n) l) as F. lia.
Qed.

Lemma c_string_terminated (b rest : bytes) :
  ~ In 0 b -> c_string (b ++ 0 :: rest) = b.
Proof.
  induction b as [|x b IH]; cbn; [reflexivity|]. intros N.
  destruct (Z.eqb_spec x 0) as [-> | _]; [tauto|]. rewrite IH; tauto.
Qed.

Lemma c_chars_terminated (n : Z) (b rest : bytes) :
  ~ In 0 b -> len b < n -> c_chars n (b ++ 0 :: rest) = b.
Proof.
  intros N L. unfold c_chars, len in *. rewrite firstn_app.
  rewrite firstn_all2 by lia.
  destruct (Z.to_nat n - List.length b)%nat as [|d] eqn:E; [lia|].
  cbn [firstn]. apply c_string_terminated. exact N.
Qed.

Lemma decoded_text_within (n : Z) (l : bytes) (txt : pystr) :
  0 <= n -> decode_utf8 (c_chars n l) = Some txt -> text_within n txt.
Proof.
  intros Hn D. exists (c_chars n l).
  split; [exact (encode_after_decode _ _ D) | apply c_chars_within; exact Hn].
Qed.

(** X5: A value that [get] returns is text of at most VALUE_SIZE bytes of UTF-8
    without a zero byte, and comes without an error message. *)
Theorem get_returns_bounded_text (s : State) (k value_str : pystr)
    (error : option string) :
  fst (get k s) = Return (Some value_str, error) ->
  error = None /\ text_within VALUE_SIZE value_str.
Proof.
  destruct s as [[[|a]|] f m t]; unfold_methods; cbn -[repeat c_chars];
    try discriminate.
  destruct (encode_utf8 k) as [kb|]; cbn -[repeat c_chars]; [|discriminate].
  destruct (len kb >=? KEY_SIZE); cbn -[repeat c_chars]; [discriminate|].
  destruct (shared_memory_kv_get _ _ _ _) as [[r buf] m']; cbn -[c_chars].
  destruct (r =? -1); cbn -[c_chars].
  - destruct (get_errno m' =? 2); discriminate.
  - destruct (decode_utf8 (c_chars VALUE_SIZE buf)) as [x|] eqn:D; cbn;
      [|discriminate].
    intros [= <- <-]. split; [reflexivity|].
    apply (decoded_text_within VALUE_SIZE buf); [discriminate | exact D].
Qed.

(** X6: Round trip through the buffer: when the engine answers a [get] by
    copying into the buffer, zero-terminated, the bytes [set] passes for
    the value [v], [get] returns [v]. *)
Theorem get_reads_back_encoded_value (s : State) (k v : pystr) (a r : Z)
    (kb vb rest : bytes) (m' : Shm) :
  store_ptr s = Some (Addr a) ->
  encode_utf8 k = Some kb -> len kb < KEY_SIZE ->
  encode_utf8 v = Some vb -> len vb < VALUE_SIZE -> ~ In 0 vb ->
  shared_memory_kv_get (shm s) (Addr a) kb (repeat 0 (Z.to_nat VALUE_SIZE))
  = (r, vb ++ 0 :: rest, m') ->
  r <> -1 ->
  fst (get k s) = Return (Some v, None).
Proof.
  intros P Ek Lk Ev Lv N E Hr.
  assert (I : initialized s) by (exists a; exact P).
  rewrite (get_initialized s k kb I Ek). rewrite Z.geb_leb.
  destruct (Z.leb_spec KEY_SIZE (len kb)); [lia|].
  rewrite P. cbn [the_ptr]. cbv zeta. rewrite E. cbn [fst snd].
  destruct (Z.eqb_spec r (-1)); [contradiction|].
  rewrite (c_chars_terminated VALUE_SIZE vb rest N Lv).
  rewrite (decode_after_encode v vb Ev). reflexivity.
Qed.

(** X7: After [destroy], [set], [get], [get_status] and [destroy] answer as on
    a store that was never opened and change nothing: the unmapped segment
    is neither passed to the engine nor dereferenced. *)
Theorem no_use_after_destroy (s : State) (k v : pystr) :
  fst (set k v (snd (destroy s))) = Return (false, Some msg_not_initialized) /\
  fst (get k (snd (destroy s))) = Return (None, Some msg_not_initialized) /\
  fst (get_status (snd (destroy s))) = Return None /\
  snd (set k v (snd (destroy s))) = snd (destroy s) /\
  snd (get k (snd (destroy s))) = snd (destroy s) /\
  snd (get_status (snd (destroy s))) = snd (destroy s) /\
  snd (destroy (snd (destroy s))) = snd (destroy s).
Proof.
  rewrite destroy_state.
  destruct s as [[[|a]|] f m t]; cbn; repeat split; reflexivity.
Qed.

(** X8: [open] and [create] return [True] exactly when they leave a usable
    handle and [False] exactly when they leave [None]; either way they
    make that one engine call and no call of the engine's destroy, also
    when they replace a usable handle. *)
Theorem open_and_create_report_the_handle (s : State) :
  (exists b, fst (open s) = Return b /\
     (b = true <-> initialized (snd (open s))) /\
     (b = false <-> store_ptr (snd (open s)) = None)) /\
  trace (snd (open s)) = trace s ++ [CallOpen] /\
  (exists b, fst (create s) = Return b /\
     (b = true <-> initialized (snd (create s))) /\
     (b = false <-> store_ptr (snd (create s)) = None)) /\
  trace (snd (create s)) = trace s ++ [CallCreate].
Proof.
  destruct s as [p f m t]; unfold initialized; unfold_methods; cbn.
  destruct (shared_memory_kv_open m f) as [[[|a] f1] m1];
    destruct (shared_memory_kv_create m f) as [[[|a2] f2] m2]; cbn.
  all: repeat split; try reflexivity.
  all: try (eexists; split; [reflexivity|]; split; split; intros H;
            try discriminate; try reflexivity; eauto;
            try (destruct H as [? H]; discriminate)).
Qed.

(** The loop of [get_status] stops at the first occupied slot that does not
    decode. *)
Lemma collect_raises (st : SharedMemoryKVStore) (idx : list nat) (s : State) :
  Exists (fun p => slot_view p = None) (filter occupied (map (table_at st) idx)) ->
  collect st idx s = (Raise UnicodeDecodeError, s).
Proof.
  induction idx as [|i idx IH]; cbn [collect map filter]; intros X.
  - inversion X.
  - fold (occupied (table_at st i)).
    destruct (occupied (table_at st i)) eqn:O; [|exact (IH X)].
    unfold bind, decode, ret, raise.
    destruct (slot_view (table_at st i)) as [e|] eqn:SV.
    + inversion X as [p l Hp | p l Hl]; subst; [congruence|].
      unfold slot_view in SV.
      destruct (decode_utf8 (c_chars KEY_SIZE (key (table_at st i)))) as [ks|];
        [|discriminate].
      destruct (decode_utf8 (c_chars VALUE_SIZE (value (table_at st i)))) as [vs|];
        [|discriminate].
      rewrite (IH Hl). reflexivity.
    + unfold slot_view in SV.
      destruct (decode_utf8 (c_chars KEY_SIZE (key (table_at st i)))) as [ks|];
        [|reflexivity].
      destruct (decode_utf8 (c_chars VALUE_SIZE (value (table_at st i)))) as [vs|];
        [discriminate | reflexivity].
Qed.

Lemma all_or_one (l : list KVPair) :
  Forall (fun p => slot_view p <> None) l \/
  Exists (fun p => slot_view p = None) l.
Proof.
  induction l as [|p l [F | X]]; auto.
  destruct (slot_view p) eqn:SV; [left | right]; auto.
  constructor; [congruence | exact F].
Qed.

(** [get_status] on a usable handle: a status, or [UnicodeDecodeError]. *)
Lemma get_status_usable (s : State) (a : Z) :
  store_ptr s = Some (Addr a) ->
  (Forall (fun p => slot_view p <> None)
          (filter occupied (slots (contents (shm s) a))) /\
   exists st, fst (get_status s) = Return (Some st)) \/
  (Exists (fun p => slot_view p = None)
          (filter occupied (slots (contents (shm s) a))) /\
   fst (get_status s) = Raise UnicodeDecodeError).
Proof.
  destruct s as [p f m t]; cbn [store_ptr shm]; intros ->.
  unfold_methods; cbn -[collect seq].
  pose (s1 := mkState (Some (Addr a)) f m (t ++ [Deref (Addr a)])). fold s1.
  destruct (all_or_one (filter occupied (slots (contents m a)))) as [F | X].
  - left. split; [exact F|].
    destruct (collect_entries (contents m a) (seq 0 MAX_ENTRIES) s1 F)
      as [entries [E _]].
    rewrite E. cbn. eauto.
  - right. split; [exact X|].
    rewrite (collect_raises (contents m a) (seq 0 MAX_ENTRIES) s1 X). reflexivity.
Qed.

Lemma get_status_results (s : State) :
  fst (get_status s) = Return None \/
  (exists st, fst (get_status s) = Return (Some st)) \/
  fst (get_status s) = Raise UnicodeDecodeError.
Proof.
  destruct (store_ptr s) as [[|a]|] eqn:P.
  - left. destruct s as [p f m t]; cbn in P; subst. reflexivity.
  - destruct (get_status_usable s a P) as [[_ H] | [_ H]]; auto.
  - left. destruct s as [p f m t]; cbn in P; subst. reflexivity.
Qed.

(** X9: [get_status] raises nothing but [UnicodeDecodeError], and on a usable
    handle it raises it exactly when one of the occupied slots holds a key
    or a value that is not UTF-8. *)
Theorem get_status_raises_iff (s : State) :
  (forall e, fst (get_status s) = Raise e -> e = UnicodeDecodeError) /\
  (forall a, store_ptr s = Some (Addr a) ->
     (fst (get_status s) = Raise UnicodeDecodeError <->
      Exists (fun p => slot_view p = None)
             (filter occupied (slots (contents (shm s) a))))).
Proof.
  split.
  - intros e E. destruct (get_status_results s) as [R | [[st R] | R]];
      rewrite R in E; [discriminate | discriminate | injection E as <-; reflexivity].
  - intros a P. destruct (get_status_usable s a P) as [[F [st R]] | [X R]];
      rewrite R; split; auto; try discriminate.
    intros X. apply Exists_exists in X as [p [Ip Hp]].
    rewrite Forall_forall in F. destruct (F p Ip Hp).
Qed.

(** The entries the loop of [get_status] returns. *)
Lemma collect_within (st : SharedMemoryKVStore) (idx : list nat) (s : State)
    (entries : list Entry) :
  fst (collect st idx s) = Return entries ->
  (List.length entries <= List.length idx)%nat /\ Forall entry_within entries.
Proof.
  revert entries. induction idx as [|i idx IH]; cbn [collect]; intros entries.
  - intros [= <-]. split; [cbn; lia | constructor].
  - fold (occupied (table_at st i)).
    destruct (occupied (table_at st i)) eqn:O.
    + unfold bind, decode, ret, raise. cbn [negb].
      destruct (decode_utf8 (c_chars KEY_SIZE (key (table_at st i)))) as [ks|] eqn:Dk;
        [|discriminate].
      destruct (decode_utf8 (c_chars VALUE_SIZE (value (table_at st i)))) as [vs|] eqn:Dv;
        [|discriminate].
      destruct (collect st idx s) as [[es|e] s'] eqn:C; cbn; [|discriminate].
      intros [= <-]. destruct (IH es eq_refl) as [L F].
      split; [cbn; lia|]. constructor; [|exact F].
      repeat split; cbn.
      * intros ->. unfold occupied in O.
        assert (Z : c_chars KEY_SIZE (key (table_at st i)) = [])
          by (apply (encode_after_decode _ _) in Dk; injection Dk as <-; reflexivity).
        rewrite Z in O. discriminate.
      * apply (decoded_text_within KEY_SIZE _ _ ltac:(discriminate) Dk).
      * apply (decoded_text_within VALUE_SIZE _ _ ltac:(discriminate) Dv).
    + cbn [negb]. intros R. destruct (IH entries R) as [L F].
      split; [cbn; lia | exact F].
Qed.

(** X10: A status that [get_status] returns lists at most MAX_ENTRIES entries,
    gives MAX_ENTRIES as the capacity, and each entry has a non-empty key
    of at most KEY_SIZE bytes and a value of at most VALUE_SIZE bytes, both
    UTF-8 without a zero byte. *)
Theorem status_entries_within (s : State) (st : Status) :
  fst (get_status s) = Return (Some st) ->
  (List.length (s_entries st) <= MAX_ENTRIES)%nat /\
  s_max_entries st = Z.of_nat MAX_ENTRIES /\
  Forall entry_within (s_entries st).
Proof.
  destruct s as [[[|a]|] f m t]; unfold_methods; cbn -[collect seq];
    try discriminate.
  destruct (collect _ _ _) as [[es|e] s'] eqn:C; cbn -[collect seq];
    [|discriminate].
  intros [= <-]. cbn.
  destruct (collect_within _ _ _ es (f_equal fst C)) as [L F].
  rewrite length_seq in L. auto.
Qed.

(** X17: Without a usable handle only [create], [open] and [unlink] reach the
    engine, each with its one call; every other method does nothing
    outside the process and leaves the far side as it was. *)
Theorem without_a_handle_only_three_calls (o : op) (s : State) :
  uninitialized s ->
  trace (step o s) =
  trace s ++ match o with
             | OpCreate => [CallCreate]
             | OpOpen => [CallOpen]
             | OpUnlink => [CallUnlink]
             | _ => []
             end /\
  match o with
  | OpCreate | OpOpen | OpUnlink => True
  | _ => shm (step o s) = shm s
  end.
Proof.
  intros U. destruct o; unfold step; try rewrite get_status_state;
    destruct s as [p f m t]; destruct U as [U | U]; cbn in U; subst p;
    unfold_methods; cbn; rewrite ?app_nil_r; try (split; reflexivity).
  all: repeat match goal with
         | |- context [shared_memory_kv_create ?a ?b] =>
             destruct (shared_memory_kv_create a b) as [[[|?] ?] ?]; cbn
         | |- context [shared_memory_kv_open ?a ?b] =>
             destruct (shared_memory_kv_open a b) as [[[|?] ?] ?]; cbn
         | |- context [shared_memory_kv_unlink ?a] =>
             destruct (shared_memory_kv_unlink a) as [? ?]; cbn
         end; auto.
Qed.

(** X18: [verify_fix] completes and prints SUCCESS on every engine: it makes no
    call into the library and leaves a wrapper whose handle is [None];
    without the library file it returns at once, and a library that does
    not load ends it with the loader's exception. *)
Theorem verify_fix_passes (m : Shm) (t : list event) :
  verify_fix true true m t = (Completed true, Some (mkState None (-1) m t)) /\
  (forall cdll_ok, verify_fix false cdll_ok m t = (LibraryNotFound, None)) /\
  verify_fix true false m t = (Uncaught OSError, None).
Proof.
  repeat split.
Qed.

(** X11: UTF-8 as the binding uses it is a bijection between the strings that
    encode and the byte sequences that decode: decoding gives back what was
    encoded, and encoding gives back what was decoded. *)
Theorem utf8_round_trip (txt : pystr) (b : bytes) :
  (encode_utf8 txt = Some b -> decode_utf8 b = Some txt) /\
  (decode_utf8 b = Some txt -> encode_utf8 txt = Some b).
Proof.
  split; [apply decode_after_encode | apply encode_after_decode].
Qed.

End Further.

(** * Further properties of the service *)

(** The message of a failed engine call has neither "too long" nor
    "not found" in it. *)
Lemma errno_messages_select_nothing (errno_val : Z) :
  contains "too long" (lower (msg_error_setting errno_val)) = false /\
  contains "not found" (lower (msg_error_getting errno_val)) = false.
Proof.
  pose proof (numeric_str_of_int errno_val) as N.
  unfold msg_error_setting, msg_error_getting. split.
  - destruct (contains "too long" _) eqn:C; [|reflexivity].
    apply (contains_occurs _ _ "l"%char) in C; [|reflexivity].
    rewrite lower_app, occurs_app, (lower_numeric _ N) in C.
    rewrite (occurs_numeric "l"%char _ eq_refl N) in C. discriminate.
  - destruct (contains "not found" _) eqn:C; [|reflexivity].
    apply (contains_occurs _ _ "f"%char) in C; [|reflexivity].
    rewrite lower_app, occurs_app, (lower_numeric _ N) in C.
    rewrite (occurs_numeric "f"%char _ eq_refl N) in C. discriminate.
Qed.

(** What the handlers find in the wrapper's fixed messages. *)
Lemma fixed_messages_select :
  contains "not found" (lower msg_not_initialized) = false /\
  contains "not found" (lower msg_key_too_long) = false /\
  contains "not found" (lower msg_key_not_found) = true /\
  contains "too long" (lower msg_not_initialized) = false /\
  contains "too long" (lower msg_key_too_long) = true /\
  contains "too long" (lower msg_value_too_long) = true /\
  contains "full" (lower msg_not_initialized) = false /\
  contains "ENOSPC" msg_not_initialized = false.
Proof. repeat split; vm_compute; reflexivity. Qed.

Section FurtherService.

Context {Shm : Type} {lib : Engine Shm}.

(** [GET /get/{key}] with a wrapper in place, by what the wrapper's [get]
    gives. *)
Lemma get_value_cases (sv : @Server Shm) (w : Wrapper) (k : pystr) :
  kv_store sv = Some w ->
  fst (get_value k sv) =
  match fst (get k (wrapper_state w sv)) with
  | Raise e => Raise e
  | Return (Some value_str, _) => Return (mkGetResponse k value_str)
  | Return (None, Some m) =>
      Raise (HTTPException (if contains "not found" (lower m) then 404 else 500) m)
  | Return (None, None) => Raise ValidationError
  end.
Proof.
  intros Hw. unfold get_value, call. rewrite Hw. fold (wrapper_state w sv).
  pose proof (get_results (wrapper_state w sv) k) as R.
  destruct (get k (wrapper_state w sv)) as [r s']; cbn [fst] in *.
  destruct R as [R | [R | [R | [R | [R | [[n [Hn R]] | [x R]]]]]]]; subst r;
    try reflexivity.
  cbn -[contains lower msg_error_getting].
  rewrite (proj2 (errno_messages_select_nothing n)). reflexivity.
Qed.

(** X12: [GET /get/{key}] answers 404 exactly when the wrapper's [get] reports
    "Key not found"; a key that is too long is answered 500 (not 413), and
    no answer carries another error status than 404, 500 or 503. *)
Theorem get_value_status_codes (sv : @Server Shm) (k : pystr) :
  (forall detail,
     fst (get_value k sv) = Raise (HTTPException 404 detail) <->
     detail = msg_key_not_found /\
     exists w, kv_store sv = Some w /\
       fst (get k (wrapper_state w sv)) = Return (None, Some msg_key_not_found)) /\
  (forall w, kv_store sv = Some w ->
     fst (get k (wrapper_state w sv)) = Return (None, Some msg_key_too_long) ->
     fst (get_value k sv) = Raise (HTTPException 500 msg_key_too_long)) /\
  (forall c detail, fst (get_value k sv) = Raise (HTTPException c detail) ->
     c = 404 \/ c = 500 \/ c = 503).
Proof.
  destruct (kv_store sv) as [w|] eqn:Hw.
  - rewrite (get_value_cases sv w k Hw).
    destruct (get_results (wrapper_state w sv) k)
      as [R | [R | [R | [R | [R | [[n [Hn R]] | [x R]]]]]]];
      rewrite R; cbv beta iota;
      try rewrite (proj2 (errno_messages_select_nothing n));
      destruct fixed_messages_select as (N1 & N2 & N3 & _);
      rewrite ?N1, ?N2, ?N3.
    all: split; [intros detail; split;
                 [ intros E;
                   first [ discriminate E
                         | injection E as <-;
                           split; [reflexivity | exists w; split; [reflexivity | exact R]] ]
                 | intros [-> [w' [Hw' G]]]; injection Hw' as <-; rewrite R in G;
                   first [discriminate G | reflexivity] ]
                | split; [intros w' Hw' G; injection Hw' as <-; rewrite R in G;
                          first [discriminate G | reflexivity]
                         | intros c detail E;
                           first [discriminate E | injection E as <- _; auto] ] ].
  - unfold get_value. rewrite Hw. cbn.
    split; [intros detail; split;
            [discriminate | intros [_ [w' [Hw' _]]]; discriminate Hw']
           | split; [intros w' Hw'; discriminate Hw'
                    | intros c detail [= <- _]; auto ] ].
Qed.

(** [POST /set] with a wrapper in place, by what the wrapper's [set]
    gives. *)
Lemma set_value_cases (sv : @Server Shm) (w : Wrapper) (k v : pystr) :
  kv_store sv = Some w ->
  fst (set_value k v sv) =
  match fst (set k v (wrapper_state w sv)) with
  | Raise e => Raise e
  | Return (true, _) => Return (mkSetResponse true k)
  | Return (false, Some m) =>
      Raise (HTTPException (if contains "too long" (lower m) then 413 else 400) m)
  | Return (false, None) => Raise AttributeError
  end.
Proof.
  intros Hw. unfold set_value, call. rewrite Hw. fold (wrapper_state w sv).
  pose proof (set_results (wrapper_state w sv) k v) as R.
  destruct fixed_messages_select as (_ & _ & _ & N4 & N5 & N6 & N7 & N8).
  destruct (set k v (wrapper_state w sv)) as [r s']; cbn [fst] in *.
  destruct R as [R | [R | [R | [R | [R | [n R]]]]]]; subst r; cbv beta iota;
    cbn [negb]; cbv beta iota; rewrite ?N4, ?N5, ?N6, ?N7, ?N8; try reflexivity.
  destruct (error_setting_selects_no_507 n) as [F N]. rewrite F, N.
  rewrite (proj1 (errno_messages_select_nothing n)). reflexivity.
Qed.

(** X13: [POST /set] answers 413 exactly when the wrapper's [set] reports a key
    or a value that is too long, 400 for every failure the engine reports,
    whatever the errno, and no other error status than 400, 413 or 503. *)
Theorem set_value_status_codes (sv : @Server Shm) (k v : pystr) :
  (forall detail,
     fst (set_value k v sv) = Raise (HTTPException 413 detail) <->
     (detail = msg_key_too_long \/ detail = msg_value_too_long) /\
     exists w, kv_store sv = Some w /\
       fst (set k v (wrapper_state w sv)) = Return (false, Some detail)) /\
  (forall w errno_val, kv_store sv = Some w ->
     fst (set k v (wrapper_state w sv))
     = Return (false, Some (msg_error_setting errno_val)) ->
     fst (set_value k v sv)
     = Raise (HTTPException 400 (msg_error_setting errno_val))) /\
  (forall c detail, fst (set_value k v sv) = Raise (HTTPException c detail) ->
     c = 400 \/ c = 413 \/ c = 503).
Proof.
  destruct fixed_messages_select as (_ & _ & _ & N4 & N5 & N6 & _).
  destruct (kv_store sv) as [w|] eqn:Hw.
  - rewrite (set_value_cases sv w k v Hw).
    destruct (set_results (wrapper_state w sv) k v)
      as [R | [R | [R | [R | [R | [n R]]]]]];
      rewrite R; cbv beta iota;
      try rewrite (proj1 (errno_messages_select_nothing n));
      rewrite ?N4, ?N5, ?N6.
    all: split; [intros detail; split;
                 [ intros E;
                   first [ discriminate E
                         | injection E as <-;
                           split; [auto | exists w; split; [reflexivity | exact R]] ]
                 | intros [[-> | ->] [w' [Hw' G]]]; injection Hw' as <-;
                   rewrite R in G; first [discriminate G | reflexivity] ]
                | split; [intros w' e Hw' G; injection Hw' as <-; rewrite R in G;
                          first [discriminate G | congruence]
                         | intros c detail E;
                           first [discriminate E | injection E as <- _; auto] ] ].
  - unfold set_value. rewrite Hw. cbn.
    split; [intros detail; split;
            [discriminate | intros [_ [w' [Hw' _]]]; discriminate Hw']
           | split; [intros w' e Hw'; discriminate Hw'
                    | intros c detail [= <- _]; auto ] ].
Qed.

Lemma get_value_state (sv : @Server Shm) (w : Wrapper) (k : pystr) :
  kv_store sv = Some w ->
  snd (get_value k sv) = after_call (snd (get k (wrapper_state w sv))).
Proof.
  intros Hw. unfold get_value, call. rewrite Hw. fold (wrapper_state w sv).
  destruct (get k (wrapper_state w sv)) as [[[val err]|e] s']; [|reflexivity].
  destruct (truthy err); [destruct err as [m|]; [destruct (contains _ _)|]
                         | destruct val]; reflexivity.
Qed.

Lemma set_value_state (sv : @Server Shm) (w : Wrapper) (k v : pystr) :
  kv_store sv = Some w ->
  snd (set_value k v sv) = after_call (snd (set k v (wrapper_state w sv))).
Proof.
  intros Hw. unfold set_value, call. rewrite Hw. fold (wrapper_state w sv).
  destruct (set k v (wrapper_state w sv)) as [[[ok err]|e] s']; [|reflexivity].
  destruct ok; [reflexivity|]. destruct err; reflexivity.
Qed.

Lemma get_status_endpoint_state (f : exn -> string) (sv : @Server Shm)
    (w : Wrapper) :
  kv_store sv = Some w ->
  snd (get_status_endpoint f sv) = after_call (snd (get_status (wrapper_state w sv))).
Proof.
  intros Hw. unfold get_status_endpoint, call. rewrite Hw.
  fold (wrapper_state w sv).
  destruct (get_status (wrapper_state w sv)) as [[[st|]|e] s'];
    try reflexivity. destruct e; reflexivity.
Qed.

Ltac unfold_methods :=
  unfold set, get, get_status, destroy, create, open, unlink, deref,
    _check_store, encode, decode, bind, ret, raise, read, emit,
    set_store_ptr, set_fd, set_shm in *.

(** [set], [get] and [get_status] on a usable handle: handle and descriptor
    stay, and all that happens outside is a table call or a dereference. *)
Lemma usable_step (s : @State Shm) (a : Z) (o : op) :
  store_ptr s = Some (Addr a) ->
  match o with OpSet _ _ | OpGet _ | OpGetStatus => True | _ => False end ->
  store_ptr (step o s) = Some (Addr a) /\ fd (step o s) = fd s /\
  exists new, trace (step o s) = trace s ++ new /\
              Forall (fun e => is_serving_event e = true) new.
Proof.
  intros P K. destruct o; try contradiction; unfold step;
    try rewrite get_status_state; destruct s as [p f m t]; cbn in P; subst p;
    unfold_methods; cbn -[repeat].
  all: repeat match goal with
         | |- context [encode_utf8 ?k] => destruct (encode_utf8 k); cbn -[repeat]
         | |- context [len ?b >=? ?n] => destruct (len b >=? n); cbn -[repeat]
         | |- context [shared_memory_kv_set ?a ?b ?c ?d] =>
             destruct (shared_memory_kv_set a b c d) as [? ?]; cbn -[repeat]
         | |- context [shared_memory_kv_get ?a ?b ?c ?d] =>
             destruct (shared_memory_kv_get a b c d) as [[? ?] ?]; cbn -[repeat]
         | |- context [?r =? ?n] => destruct (r =? n); cbn -[repeat]
         | |- context [decode_utf8 ?k] => destruct (decode_utf8 k); cbn -[repeat]
         end.
  all: repeat split; try reflexivity.
  all: try (exists []; rewrite app_nil_r; split; [reflexivity | constructor]).
  all: eexists; split; [reflexivity | repeat constructor].
Qed.

(** On a usable handle no method answers "Store not initialized". *)
Lemma usable_results (s : @State Shm) (a : Z) (k v : pystr) :
  store_ptr s = Some (Addr a) ->
  fst (set k v s) <> Return (false, Some msg_not_initialized) /\
  fst (get k s) <> Return (None, Some msg_not_initialized) /\
  fst (get_status s) <> Return None.
Proof.
  intros P. assert (I : initialized s) by (exists a; exact P).
  repeat split.
  - destruct (encode_utf8 k) as [kb|] eqn:Ek; [destruct (encode_utf8 v) as [vb|] eqn:Ev|].
    + rewrite (set_initialized s k v kb vb I Ek Ev). cbv zeta.
      repeat match goal with |- context [if ?c then _ else _] => destruct c end;
        discriminate.
    + destruct s as [p f m t]; cbn in P; subst p. unfold_methods; cbn.
      rewrite Ek, Ev. discriminate.
    + destruct s as [p f m t]; cbn in P; subst p. unfold_methods; cbn.
      rewrite Ek. discriminate.
  - destruct (encode_utf8 k) as [kb|] eqn:Ek.
    + rewrite (get_initialized s k kb I Ek). cbv zeta.
      repeat match goal with
             | |- context [if ?c then _ else _] => destruct c
             | |- context [match ?c with Some _ => _ | None => _ end] => destruct c
             end; discriminate.
    + destruct s as [p f m t]; cbn in P; subst p. unfold_methods; cbn.
      rewrite Ek. discriminate.
  - destruct (get_status_usable s a P) as [[_ [st R]] | [_ R]]; rewrite R;
      discriminate.
Qed.

Lemma serving_is_harmless (l : list event) :
  Forall (fun e => is_serving_event e = true) l ->
  Forall (fun e => keeps_segment e = true) l.
Proof.
  apply Forall_impl. intros [] H; try discriminate H; reflexivity.
Qed.

(** One request against a service whose wrapper has a usable handle. *)
Lemma serve_step (f : exn -> string) (r : request) (sv : @Server Shm)
    (w : Wrapper) (a : Z) :
  kv_store sv = Some w -> w_store_ptr w = Some (Addr a) ->
  kv_store (snd (serve f r sv)) = Some w /\
  (exists new, srv_trace (snd (serve f r sv)) = srv_trace sv ++ new /\
               Forall (fun e => is_serving_event e = true) new) /\
  (forall c d, fst (serve f r sv) = HttpError c d ->
               c <> 503 /\ d <> msg_not_initialized).
Proof.
  intros Hw P.
  assert (Ps : store_ptr (wrapper_state w sv) = Some (Addr a)) by exact P.
  destruct fixed_messages_select as (N1 & N2 & N3 & N4 & N5 & N6 & _).
  destruct r as [k | k v |]; unfold serve.
  - rewrite (surjective_pairing (get_value k sv)). cbn [fst snd].
    rewrite (get_value_state sv w k Hw), (get_value_cases sv w k Hw).
    destruct (usable_step _ a (OpGet k) Ps I) as (S1 & S2 & S3).
    unfold step in S1, S2, S3. unfold after_call. cbn [kv_store srv_trace].
    rewrite S1, S2. split; [destruct w; cbn in *; congruence|].
    split; [exact S3|].
    destruct (usable_results _ a k [] Ps) as (_ & G & _).
    destruct (get_results (wrapper_state w sv) k)
      as [R | [R | [R | [R | [R | [[n [Hn R]] | [x R]]]]]]];
      rewrite R in *; cbv beta iota;
      try rewrite (proj2 (errno_messages_select_nothing n));
      rewrite ?N2, ?N3; cbn [answer_of]; try congruence;
      intros c d [= <- <-]; split; discriminate.
  - rewrite (surjective_pairing (set_value k v sv)). cbn [fst snd].
    rewrite (set_value_state sv w k v Hw), (set_value_cases sv w k v Hw).
    destruct (usable_step _ a (OpSet k v) Ps I) as (S1 & S2 & S3).
    unfold step in S1, S2, S3. unfold after_call. cbn [kv_store srv_trace].
    rewrite S1, S2. split; [destruct w; cbn in *; congruence|].
    split; [exact S3|].
    destruct (usable_results _ a k v Ps) as (G & _ & _).
    destruct (set_results (wrapper_state w sv) k v)
      as [R | [R | [R | [R | [R | [n R]]]]]];
      rewrite R in *; cbv beta iota;
      try rewrite (proj1 (errno_messages_select_nothing n));
      rewrite ?N5, ?N6; cbn [answer_of]; try congruence;
      intros c d [= <- <-]; split; discriminate.
  - rewrite (surjective_pairing (get_status_endpoint f sv)). cbn [fst snd].
    rewrite (get_status_endpoint_state f sv w Hw).
    destruct (usable_step _ a OpGetStatus Ps I) as (S1 & S2 & S3).
    unfold step in S1, S2, S3. unfold after_call. cbn [kv_store srv_trace].
    rewrite S1, S2. split; [destruct w; cbn in *; congruence|].
    split; [exact S3|].
    unfold get_status_endpoint, call. rewrite Hw. fold (wrapper_state w sv).
    destruct (usable_results _ a [] [] Ps) as (_ & _ & G).
    pose proof (get_status_results (wrapper_state w sv)) as R.
    destruct (get_status (wrapper_state w sv)) as [o s']; cbn [fst] in *.
    destruct R as [R | [[st R] | R]]; subst o; cbn [fst answer_of];
      try congruence.
    intros c d [= <- <-]. split; discriminate.
Qed.

(** X14: Whatever state the service is in, a handler lets only the two codec
    errors escape, and never from [GET /status]; every other failure is an
    HTTP error with one of five status codes. *)
Theorem service_answers (f : exn -> string) (r : request) (sv : @Server Shm) :
  (forall e, fst (serve f r sv) = Unhandled e ->
     (e = UnicodeEncodeError \/ e = UnicodeDecodeError) /\ r <> GetStatus) /\
  (forall c d, fst (serve f r sv) = HttpError c d ->
     In c [400; 404; 413; 500; 503]).
Proof.
  destruct fixed_messages_select as (N1 & N2 & N3 & N4 & N5 & N6 & _).
  destruct (kv_store sv) as [w|] eqn:Hw.
  - destruct r as [k | k v |]; unfold serve.
    + rewrite (surjective_pairing (get_value k sv)). cbn [fst snd].
      rewrite (get_value_cases sv w k Hw).
      destruct (get_results (wrapper_state w sv) k)
        as [R | [R | [R | [R | [R | [[n [Hn R]] | [x R]]]]]]];
        rewrite R; cbv beta iota;
        try rewrite (proj2 (errno_messages_select_nothing n));
        rewrite ?N1, ?N2, ?N3; cbn [answer_of];
        (split; [intros e E;
                 first [discriminate E
                       | injection E as <-; split; [auto | discriminate]]
                | intros c d E;
                  first [discriminate E | injection E as <- _; cbn; auto 10]]).
    + rewrite (surjective_pairing (set_value k v sv)). cbn [fst snd].
      rewrite (set_value_cases sv w k v Hw).
      destruct (set_results (wrapper_state w sv) k v)
        as [R | [R | [R | [R | [R | [n R]]]]]];
        rewrite R; cbv beta iota;
        try rewrite (proj1 (errno_messages_select_nothing n));
        rewrite ?N4, ?N5, ?N6; cbn [answer_of];
        (split; [intros e E;
                 first [discriminate E
                       | injection E as <-; split; [auto | discriminate]]
                | intros c d E;
                  first [discriminate E | injection E as <- _; cbn; auto 10]]).
    + rewrite (surjective_pairing (get_status_endpoint f sv)). cbn [fst snd].
      unfold get_status_endpoint, call. rewrite Hw. fold (wrapper_state w sv).
      pose proof (get_status_results (wrapper_state w sv)) as R.
      destruct (get_status (wrapper_state w sv)) as [o s']; cbn [fst] in *.
      destruct R as [R | [[st R] | R]]; subst o; cbn [fst answer_of];
        (split; [intros e E; discriminate E
                | intros c d E;
                  first [discriminate E | injection E as <- _; cbn; auto 10]]).
  - destruct r as [k | k v |]; unfold serve, get_value, set_value,
      get_status_endpoint; rewrite Hw; cbn [fst answer_of];
      (split; [intros e E; discriminate E
              | intros c d [= <- _]; cbn; auto 10]).
Qed.

(** Start-up that reaches [yield] leaves a wrapper with a usable handle,
    and has neither unmapped nor unlinked anything. *)
Lemma startup_facts (sv : @Server Shm) :
  fst (lifespan_startup true true sv) = Return tt ->
  (exists w a, kv_store (snd (lifespan_startup true true sv)) = Some w /\
               w_store_ptr w = Some (Addr a)) /\
  exists new,
    srv_trace (snd (lifespan_startup true true sv)) = srv_trace sv ++ new /\
    Forall (fun e => keeps_segment e = true) new.
Proof.
  unfold lifespan_startup, lifespan_try, init_wrapper, call.
  destruct sv as [kv m t].
  unfold create, open, _check_store, bind, ret, read, emit, set_store_ptr,
    set_fd, set_shm.
  cbn -[get_status].
  destruct (shared_memory_kv_open m (-1)) as [[[|a] f1] m1]; cbn -[get_status].
  - destruct (shared_memory_kv_create m1 f1) as [[[|a2] f2] m2]; cbn -[get_status];
      [discriminate|].
    pose proof (get_status_state
                  (mkState (Some (Addr a2)) f2 m2 ((t ++ [CallOpen]) ++ [CallCreate])))
      as GS.
    destruct (get_status _) as [[r|e] s']; cbn in GS; subst s'; cbn;
      [|destruct e; discriminate].
    intros _. split; [do 2 eexists; split; reflexivity|].
    exists [CallOpen; CallCreate; Deref (Addr a2)]. rewrite <- !app_assoc.
    split; [reflexivity | repeat constructor].
  - pose proof (get_status_state (mkState (Some (Addr a)) f1 m1 (t ++ [CallOpen])))
      as GS.
    destruct (get_status _) as [[r|e] s']; cbn in GS; subst s'; cbn;
      [|destruct e; discriminate].
    intros _. split; [do 2 eexists; split; reflexivity|].
    exists [CallOpen; Deref (Addr a)]. rewrite <- !app_assoc.
    split; [reflexivity | repeat constructor].
Qed.

(** A sequence of requests against a service whose wrapper has a usable
    handle. *)
Lemma serve_all_steps (f : exn -> string) (rs : list request) (sv : @Server Shm)
    (w : Wrapper) (a : Z) :
  kv_store sv = Some w -> w_store_ptr w = Some (Addr a) ->
  kv_store (snd (serve_all f rs sv)) = Some w /\
  (exists new, srv_trace (snd (serve_all f rs sv)) = srv_trace sv ++ new /\
               Forall (fun e => is_serving_event e = true) new) /\
  Forall (fun x => forall c d, x = HttpError c d ->
                               c <> 503 /\ d <> msg_not_initialized)
         (fst (serve_all f rs sv)).
Proof.
  revert sv. induction rs as [|r rs IH]; intros sv Hw P; cbn [serve_all].
  - split; [exact Hw|]. split; [|constructor].
    exists []. rewrite app_nil_r. split; [reflexivity | constructor].
  - destruct (serve_step f r sv w a Hw P) as (K1 & (n1 & T1 & F1) & A1).
    destruct (serve f r sv) as [x sv1]; cbn [fst snd] in *.
    destruct (IH sv1 K1 P) as (K2 & (n2 & T2 & F2) & A2).
    destruct (serve_all f rs sv1) as [l sv2]; cbn [fst snd] in *.
    split; [exact K2|]. split; [|constructor; assumption].
    exists (n1 ++ n2). rewrite T2, T1, app_assoc.
    split; [reflexivity | apply Forall_app; auto].
Qed.

(** X15: Once start-up has reached [yield], requests never lose the store: the
    wrapper keeps its handle, no answer is 503 or "Store not initialized",
    and all the requests do outside the process is call the engine's set
    and get and dereference the store pointer. *)
Theorem serving_keeps_the_store (f : exn -> string) (rs : list request)
    (sv : @Server Shm) :
  fst (lifespan_startup true true sv) = Return tt ->
  kv_store (snd (serve_all f rs (snd (lifespan_startup true true sv))))
  = kv_store (snd (lifespan_startup true true sv)) /\
  serving_ok (snd (serve_all f rs (snd (lifespan_startup true true sv)))) /\
  Forall (fun x => forall c d, x = HttpError c d ->
                               c <> 503 /\ d <> msg_not_initialized)
         (fst (serve_all f rs (snd (lifespan_startup true true sv)))) /\
  exists new,
    srv_trace (snd (serve_all f rs (snd (lifespan_startup true true sv))))
    = srv_trace (snd (lifespan_startup true true sv)) ++ new /\
    Forall (fun e => is_serving_event e = true) new.
Proof.
  intros S. destruct (startup_facts sv S) as [(w & a & Hw & P) _].
  destruct (serve_all_steps f rs _ w a Hw P) as (K & T & A).
  rewrite K, Hw. split; [reflexivity|]. split; [exists w, a; auto|].
  split; assumption.
Qed.

(** X16: From start-up to shutdown the service never unlinks the segment and
    unmaps it once, as the last thing it does; it ends with a wrapper whose
    handle is [None] and whose descriptor is -1. *)
Theorem service_never_unlinks (f : exn -> string) (rs : list request)
    (sv : @Server Shm) :
  fst (lifespan_startup true true sv) = Return tt ->
  fst (lifespan_shutdown
         (snd (serve_all f rs (snd (lifespan_startup true true sv)))))
  = Return tt /\
  kv_store (snd (lifespan_shutdown
                   (snd (serve_all f rs (snd (lifespan_startup true true sv))))))
  = Some (mkWrapper None (-1)) /\
  exists before fd a,
    srv_trace (snd (lifespan_shutdown
                      (snd (serve_all f rs (snd (lifespan_startup true true sv))))))
    = srv_trace sv ++ before ++ [CallDestroy fd (Addr a)] /\
    Forall (fun e => keeps_segment e = true) before.
Proof.
  intros S. destruct (startup_facts sv S) as [(w & a & Hw & P) (n0 & T0 & F0)].
  destruct (serve_all_steps f rs _ w a Hw P) as (K & (n1 & T1 & F1) & _).
  remember (snd (serve_all f rs (snd (lifespan_startup true true sv)))) as sv2.
  unfold lifespan_shutdown, call. rewrite K.
  rewrite (surjective_pairing (destroy _)). cbn [fst snd].
  rewrite destroy_state. cbn [store_ptr fd shm trace]. rewrite P.
  split; [destruct w; reflexivity|]. cbn [kv_store srv_trace store_ptr fd trace].
  split; [reflexivity|].
  exists (n0 ++ n1), (w_fd w), a. rewrite T1, T0, <- !app_assoc.
  split; [reflexivity|]. apply Forall_app. split; [exact F0|].
  apply serving_is_harmless. exact F1.
Qed.

End FurtherService.

(** * The properties on concrete inputs *)

Import Ref Inputs.

(** The binding on the reference engine: a round trip, the status of a
    store with two entries, and a full store. *)
Example get_after_set :
  result (get (ascii_str "user:1")) two = Return (Some (ascii_str "alice"), None) /\
  result (get (ascii_str "nobody")) two
  = Return (None, Some "Error getting key: errno=0"%string).
Proof. split; vm_compute; reflexivity. Qed.

Example status_of_two :
  result get_status two =
  Return (Some (mkStatus 3 2 10
                  [mkEntry (ascii_str "user:1") (ascii_str "alice") 1700000000;
                   mkEntry (ascii_str "user:2") (ascii_str "bob") 1700000000])).
Proof. vm_compute. reflexivity. Qed.

Example status_of_full :
  option_map s_entry_count
    (match result get_status full with Return r => r | Raise _ => None end) = Some 10.
Proof. vm_compute. reflexivity. Qed.

Example utf8_samples :
  encode_utf8 [8364] = Some [226; 130; 172] /\
  encode_utf8 [128512] = Some [240; 159; 152; 128] /\
  encode_utf8 [55296] = None /\
  decode_utf8 [226; 130; 172] = Some [8364] /\
  decode_utf8 [240; 159; 152; 128] = Some [128512] /\
  decode_utf8 [192; 128] = None /\
  decode_utf8 [237; 160; 128] = None /\
  decode_utf8 [99; 97; 102; 233] = None.
Proof. repeat split; vm_compute; reflexivity. Qed.

Example accents_are_two_bytes :
  len accents32 = 32 /\ option_map len (encode_utf8 accents32) = Some 64 /\
  option_map decode_utf8 (encode_utf8 accents32) = Some (Some accents32).
Proof. repeat split; vm_compute; reflexivity. Qed.

(** C1, the claim as stated fails: with a key of 64 bytes and a value of 256
    bytes the value has at least VALUE_SIZE bytes, yet [set] does not fail
    with the value-too-long error (the key is checked first).  Nor does a
    64-byte key fail with the key-too-long error on a handle without a
    store, or next to a value that has no UTF-8 encoding. *)
Lemma length_validation_counterexample :
  initialized created /\
  encode_utf8 value256 = Some value256 /\ len value256 >= VALUE_SIZE /\
  result (set key64 value256) created = Return (false, Some msg_key_too_long) /\
  ~ (result (set key64 value256) created = Return (false, Some msg_value_too_long)
     <-> len value256 >= VALUE_SIZE) /\
  result (set key64 (ascii_str "v")) start = Return (false, Some msg_not_initialized) /\
  result (set key64 [55296]) created = Raise UnicodeEncodeError.
Proof.
  assert (L : len value256 >= VALUE_SIZE) by (vm_compute; discriminate).
  refine (conj _ (conj _ (conj L (conj _ (conj _ (conj _ _))))));
    try (vm_compute; reflexivity).
  - exists BASE. vm_compute. reflexivity.
  - intros [_ H]. specialize (H L). vm_compute in H. discriminate.
Qed.

Lemma length_validation_witness :
  initialized created /\
  encode_utf8 key64 = Some key64 /\ encode_utf8 key63 = Some key63 /\
  len key64 = KEY_SIZE /\ len key63 = KEY_SIZE - 1 /\
  result (set key64 (ascii_str "v")) created = Return (false, Some msg_key_too_long) /\
  result (set key63 (ascii_str "v")) created <> Return (false, Some msg_key_too_long).
Proof.
  assert (I : initialized created) by (exists BASE; vm_compute; reflexivity).
  assert (E64 : encode_utf8 key64 = Some key64) by (vm_compute; reflexivity).
  assert (E63 : encode_utf8 key63 = Some key63) by (vm_compute; reflexivity).
  assert (Ev : encode_utf8 (ascii_str "v") = Some (ascii_str "v"))
    by (vm_compute; reflexivity).
  assert (L64 : len key64 = KEY_SIZE) by (vm_compute; reflexivity).
  assert (L63 : len key63 = KEY_SIZE - 1) by (vm_compute; reflexivity).
  refine (conj I (conj E64 (conj E63 (conj L64 (conj L63 (conj _ _)))))).
  - exact (proj1 (proj1 (proj2 (proj2 (proj2
             (length_validation created key64 (ascii_str "v") key64 (ascii_str "v")
                I E64 Ev)))) L64)).
  - exact (proj1 (proj2 (proj2 (proj2 (proj2
             (length_validation created key63 (ascii_str "v") key63 (ascii_str "v")
                I E63 Ev)))) L63)).
Defined.

Lemma uninitialized_store_results_witness :
  uninitialized null_handle /\ uninitialized start /\
  result (set (ascii_str "test") (ascii_str "value")) null_handle
  = Return (false, Some "Store not initialized"%string) /\
  result (get (ascii_str "test")) null_handle
  = Return (None, Some "Store not initialized"%string) /\
  result get_status null_handle = Return None /\
  result get_status start = Return None.
Proof.
  assert (U : uninitialized null_handle) by (right; reflexivity).
  assert (V : uninitialized start) by (left; reflexivity).
  destruct (uninitialized_store_results null_handle (ascii_str "test")
              (ascii_str "value") U) as [S [G [T _]]].
  destruct (uninitialized_store_results start (ascii_str "test")
              (ascii_str "value") V) as [_ [_ [T' _]]].
  repeat split; assumption.
Defined.

Lemma validation_failure_touches_nothing_witness :
  result (set key64 (ascii_str "v")) created = Return (false, Some msg_key_too_long) /\
  validation_failure (Some msg_key_too_long) /\
  shm (after (set key64 (ascii_str "v")) created) = shm created /\
  trace (after (set key64 (ascii_str "v")) created) = trace created.
Proof.
  assert (R : fst (set key64 (ascii_str "v") created)
              = Return (false, Some msg_key_too_long)) by (vm_compute; reflexivity).
  assert (V : validation_failure (Some msg_key_too_long)) by (right; left; reflexivity).
  split; [exact R | split; [exact V |]].
  exact (proj1 (validation_failure_touches_nothing created key64 (ascii_str "v"))
           (Some msg_key_too_long) R V).
Defined.

(** C4, the claim as stated fails: on a usable handle to a segment in which
    a slot holds a key that is not UTF-8, [get_status] returns no status: it
    raises [UnicodeDecodeError]. *)
Lemma get_status_counterexample :
  initialized latin1 /\
  occupied (table_at (contents (shm latin1) BASE) 0) = true /\
  result get_status latin1 = Raise UnicodeDecodeError.
Proof.
  split; [exists BASE; reflexivity | split; vm_compute; reflexivity].
Qed.

Lemma get_status_snapshot_witness :
  store_ptr two = Some (Addr BASE) /\
  Forall (fun p => slot_view p <> None)
         (filter occupied (slots (contents (shm two) BASE))) /\
  exists entries,
    result get_status two = Return (Some (mkStatus 3 2 10 entries)) /\
    map Some entries = map slot_view (filter occupied (slots (contents (shm two) BASE))).
Proof.
  assert (P : store_ptr two = Some (Addr BASE)) by (vm_compute; reflexivity).
  assert (F : Forall (fun p => slot_view p <> None)
                (filter occupied (slots (contents (shm two) BASE)))).
  { vm_compute. repeat constructor; discriminate. }
  split; [exact P | split; [exact F |]].
  exact (proj1 (get_status_snapshot two BASE P) F).
Defined.

(** C5, the claim as stated fails: [get_status] on a usable handle reads the
    segment by a dereference on the Python side, outside every engine call,
    so not under the Guard. *)
Lemma get_status_guard_counterexample :
  trace (after get_status created) = trace created ++ [Deref (Addr BASE)] /\
  ~ reads_under_guard (trace (after get_status created)).
Proof.
  assert (E : trace (after get_status created) = [CallCreate; Deref (Addr BASE)])
    by (vm_compute; reflexivity).
  split; [vm_compute; reflexivity|].
  rewrite E. intros H. inversion H as [|x l H1 H2]; subst.
  inversion H2 as [|y l' H3 H4]; subst. discriminate.
Qed.

(** C7, the claim as stated fails: on a handle without a store whose
    descriptor is 3, the descriptor is still 3 after [destroy], not -1. *)
Lemma destroy_counterexample :
  store_ptr (after destroy stale_fd) = None /\
  fd (after destroy stale_fd) = 3 /\
  fd (after destroy stale_fd) <> -1.
Proof.
  repeat split; vm_compute; congruence.
Qed.

(** C9, the claim as stated fails: a key of 32 characters and 64 bytes does
    not make [set] and [get] fail with the too-long error on a handle
    without a store (they answer "Store not initialized"), nor does it make
    [set] fail with it next to a value that has no UTF-8 encoding ([set]
    raises [UnicodeEncodeError]). *)
Lemma limits_count_utf8_bytes_counterexample :
  len accents32 < KEY_SIZE /\
  option_map len (encode_utf8 accents32) = Some KEY_SIZE /\
  uninitialized start /\
  result (set accents32 (ascii_str "v")) start
  = Return (false, Some msg_not_initialized) /\
  result (get accents32) start = Return (None, Some msg_not_initialized) /\
  initialized created /\
  result (set accents32 [55296]) created = Raise UnicodeEncodeError /\
  msg_not_initialized <> msg_key_too_long.
Proof.
  refine (conj _ (conj _ (conj _ (conj _ (conj _ (conj _ (conj _ _)))))));
    try (vm_compute; reflexivity).
  - left. reflexivity.
  - exists BASE. vm_compute. reflexivity.
  - discriminate.
Qed.

Lemma limits_count_utf8_bytes_witness :
  len accents32 < KEY_SIZE /\ len accents128 < VALUE_SIZE /\
  initialized created /\
  result (set accents32 (ascii_str "v")) created = Return (false, Some msg_key_too_long) /\
  result (get accents32) created = Return (None, Some msg_key_too_long) /\
  result (set (ascii_str "k") accents128) created
  = Return (false, Some msg_value_too_long).
Proof.
  assert (I : initialized created) by (exists BASE; vm_compute; reflexivity).
  assert (Ek : encode_utf8 accents32 = Some (List.concat (repeat [195; 169] 32)))
    by (vm_compute; reflexivity).
  assert (Ev : encode_utf8 accents128 = Some (List.concat (repeat [195; 169] 128)))
    by (vm_compute; reflexivity).
  assert (E1 : encode_utf8 (ascii_str "v") = Some (ascii_str "v"))
    by (vm_compute; reflexivity).
  assert (E2 : encode_utf8 (ascii_str "k") = Some (ascii_str "k"))
    by (vm_compute; reflexivity).
  assert (Lk : len (List.concat (repeat [195; 169] 32)) >= KEY_SIZE)
    by (vm_compute; discriminate).
  assert (Lv : len (List.concat (repeat [195; 169] 128)) >= VALUE_SIZE)
    by (vm_compute; discriminate).
  split; [vm_compute; reflexivity | split; [vm_compute; reflexivity |]].
  split; [exact I |].
  destruct (proj1 (limits_count_utf8_bytes created accents32 (ascii_str "v") _ _
                     I Ek E1) Lk) as [S G].
  split; [exact S | split; [exact G |]].
  exact (proj2 (limits_count_utf8_bytes created (ascii_str "k") accents128 _ _
                  I E2 Ev) Lv).
Defined.

Lemma handle_never_null_witness :
  handle_invariant created /\
  handle_invariant (step (OpSet (ascii_str "k") (ascii_str "v")) created) /\
  ~ handle_invariant null_handle /\
  handle_invariant (step OpGetStatus null_handle).
Proof.
  assert (H : handle_invariant created) by (vm_compute; discriminate).
  split; [exact H | split; [| split]].
  - exact (proj1 (handle_never_null (OpSet (ascii_str "k") (ascii_str "v")) created) H).
  - intros N. apply N. reflexivity.
  - apply (proj1 (proj2 (handle_never_null OpGetStatus null_handle))). discriminate.
Defined.

(** C6: a [POST /set] that the engine refuses, as it does on a full store,
    is answered with 400 and not with 507.  The wrapper reports every
    failure of the engine's set by one message built from an errno number,
    in which the handler finds neither "full" nor "ENOSPC": on every engine
    a refused set gets 400 and no request ever gets 507; so it is on the
    reference engine with all ten slots taken and a new key. *)
Theorem store_full_answers_400 :
  fst (shared_memory_kv_set (shm full) (Addr BASE) (ascii_str "new") (ascii_str "x"))
  = -1 /\
  (exists detail,
     fst (set_value (ascii_str "new") (ascii_str "x") (serving full))
     = Raise (HTTPException 400 detail)) /\
  (forall (S : Type) (E : Engine S) (sv : @Server S) (w : Wrapper) (a : Z)
          (k v : pystr) (kb vb : bytes),
     kv_store sv = Some w -> w_store_ptr w = Some (Addr a) ->
     encode_utf8 k = Some kb -> encode_utf8 v = Some vb ->
     len kb < KEY_SIZE -> len vb < VALUE_SIZE ->
     fst (shared_memory_kv_set (srv_shm sv) (Addr a) kb vb) = -1 ->
     exists detail, fst (set_value k v sv) = Raise (HTTPException 400 detail)) /\
  (forall (S : Type) (E : Engine S) (sv : @Server S) (k v : pystr) (detail : string),
     fst (set_value k v sv) <> Raise (HTTPException 507 detail)).
Proof.
  split; [vm_compute; reflexivity|].
  split; [eexists; vm_compute; reflexivity|].
  split; [|intros S E sv k v detail; apply set_value_never_507].
  intros S E sv w a k v kb vb Hw P Ek Ev Lk Lv R.
  assert (I : initialized (wrapper_state w sv)) by (exists a; exact P).
  pose proof (set_initialized (wrapper_state w sv) k v kb vb I Ek Ev) as G.
  rewrite !Z.geb_leb in G.
  destruct (Z.leb_spec KEY_SIZE (len kb)); [lia|].
  destruct (Z.leb_spec VALUE_SIZE (len vb)); [lia|].
  cbv zeta in G. cbn [wrapper_state store_ptr shm the_ptr] in G.
  rewrite P in G. cbn [the_ptr] in G. rewrite R in G.
  change (-1 =? -1) with true in G. cbv iota in G.
  rewrite (set_value_cases sv w k v Hw), G. cbv beta iota.
  rewrite (proj1 (errno_messages_select_nothing _)). eauto.
Qed.

(** Start-up on the reference engine: without a segment [open()] fails and
    [create()] makes one; with a segment [open()] is enough. *)
Example startup_creates_when_open_fails :
  srv_trace (snd (lifespan_startup true true (mkServer None empty_shm [])))
  = [CallOpen; CallCreate; Deref (Addr BASE)] /\
  srv_trace (snd (lifespan_startup true true (mkServer None (shm created) [])))
  = [CallOpen; Deref (Addr BASE)].
Proof. split; vm_compute; reflexivity. Qed.

(** * The further properties on concrete inputs *)

Import FurtherInputs.

Example requests_answered :
  fst (serve_all no_text some_requests (snd (lifespan_startup true true fresh_service)))
  = [Ok200; Ok200; HttpError 500 "Error getting key: errno=0"; Ok200;
     HttpError 413 "Key too long (max 63 bytes)"].
Proof. vm_compute. reflexivity. Qed.

Lemma get_returns_bounded_text_witness :
  result (get (ascii_str "user:1")) two = Return (Some (ascii_str "alice"), None) /\
  text_within VALUE_SIZE (ascii_str "alice").
Proof.
  assert (G : fst (get (ascii_str "user:1") two)
              = Return (Some (ascii_str "alice"), None)) by (vm_compute; reflexivity).
  split; [exact G|].
  exact (proj2 (get_returns_bounded_text two (ascii_str "user:1")
                  (ascii_str "alice") None G)).
Defined.

Lemma get_reads_back_encoded_value_witness :
  shared_memory_kv_get (shm two) (Addr BASE) (ascii_str "user:1")
    (repeat 0 (Z.to_nat VALUE_SIZE))
  = (0, alice_bytes ++ 0 :: repeat 0 250, shm two) /\
  result (get (ascii_str "user:1")) two = Return (Some (ascii_str "alice"), None).
Proof.
  assert (E : shared_memory_kv_get (shm two) (Addr BASE) (ascii_str "user:1")
                (repeat 0 (Z.to_nat VALUE_SIZE))
              = (0, alice_bytes ++ 0 :: repeat 0 250, shm two))
    by (vm_compute; reflexivity).
  split; [exact E|].
  apply (get_reads_back_encoded_value two (ascii_str "user:1") (ascii_str "alice")
           BASE 0 (ascii_str "user:1") alice_bytes (repeat 0 250) (shm two)).
  - vm_compute. reflexivity.
  - vm_compute. reflexivity.
  - vm_compute. reflexivity.
  - vm_compute. reflexivity.
  - vm_compute. reflexivity.
  - cbn. intuition discriminate.
  - exact E.
  - discriminate.
Defined.

Lemma status_entries_within_witness :
  result get_status two =
  Return (Some (mkStatus 3 2 10
                  [mkEntry (ascii_str "user:1") (ascii_str "alice") 1700000000;
                   mkEntry (ascii_str "user:2") (ascii_str "bob") 1700000000])) /\
  Forall entry_within
    [mkEntry (ascii_str "user:1") (ascii_str "alice") 1700000000;
     mkEntry (ascii_str "user:2") (ascii_str "bob") 1700000000].
Proof.
  assert (G : fst (get_status two) =
              Return (Some (mkStatus 3 2 10
                  [mkEntry (ascii_str "user:1") (ascii_str "alice") 1700000000;
                   mkEntry (ascii_str "user:2") (ascii_str "bob") 1700000000])))
    by (vm_compute; reflexivity).
  split; [exact G|].
  exact (proj2 (proj2 (status_entries_within two _ G))).
Defined.

Lemma without_a_handle_only_three_calls_witness :
  uninitialized null_handle /\
  trace (step (OpSet (ascii_str "k") (ascii_str "v")) null_handle) = trace null_handle ++ [] /\
  trace (step OpOpen null_handle) = trace null_handle ++ [CallOpen].
Proof.
  assert (U : uninitialized null_handle) by (right; reflexivity).
  split; [exact U|]. split.
  - exact (proj1 (without_a_handle_only_three_calls
                    (OpSet (ascii_str "k") (ascii_str "v")) null_handle U)).
  - exact (proj1 (without_a_handle_only_three_calls OpOpen null_handle U)).
Defined.

Lemma serving_keeps_the_store_witness :
  fst (lifespan_startup true true fresh_service) = Return tt /\
  serving_ok (snd (serve_all no_text some_requests
                     (snd (lifespan_startup true true fresh_service)))).
Proof.
  assert (S : fst (lifespan_startup true true fresh_service) = Return tt)
    by (vm_compute; reflexivity).
  split; [exact S|].
  exact (proj1 (proj2 (serving_keeps_the_store no_text some_requests fresh_service S))).
Defined.

Lemma service_never_unlinks_witness :
  fst (lifespan_startup true true fresh_service) = Return tt /\
  kv_store (snd (lifespan_shutdown
                   (snd (serve_all no_text some_requests
                           (snd (lifespan_startup true true fresh_service))))))
  = Some (mkWrapper None (-1)).
Proof.
  assert (S : fst (lifespan_startup true true fresh_service) = Return tt)
    by (vm_compute; reflexivity).
  split; [exact S|].
  exact (proj1 (proj2 (service_never_unlinks no_text some_requests fresh_service S))).
Defined.
